(** * rhasspy-asr-pocketsphinx: the Pocketsphinx transcriber adapter

    A shallow embedding of [rhasspyasr_pocketsphinx/transcribe.py] and the
    properties its specification states about it.

    The adapter is glue around three collaborators that live outside the
    repository: the [pocketsphinx] binding, Python's [wave] module and the
    operating system (file system, monotonic clock).  They enter the
    development as interfaces, [Engine], [Runtime] and, for the errors of
    the existence check, [Stat]; every theorem is proved for all their
    implementations, and [Fixture] supplies concrete ones on which
    statements can be evaluated. *)

From Stdlib Require Import ZArith List String Ascii Bool Lia Floats.
Import ListNotations.

Local Open Scope string_scope.

(** ** Python values used by the adapter *)

Module Py.

(** [bytes]. *)
Definition bytes := list Byte.byte.

(** The exceptions [wave.open] raises on a buffer it cannot read:
    [wave.Error] (bad header, unknown format), [EOFError] (truncated
    header) and the bare [RuntimeError] of [chunk.Chunk.seek] (a chunk size
    that points outside the enclosing chunk). *)
Inductive wave_exn : Type :=
| wave_Error (msg : string)
| EOFError
| wave_RuntimeError.

(** The exceptions that can leave [transcribe_wav].  [RuntimeError] is what
    the pocketsphinx binding raises (one raised inside [wave.open] is a
    [WaveExn]); [AttributeError] is what a method call on [None] raises;
    [OSError] is what [Path.exists()] lets through. *)
Inductive exn : Type :=
| RuntimeError (msg : string)
| WaveExn (e : wave_exn)
| ZeroDivisionError
| OverflowError
| AttributeError
| OSError (msg : string).

(** [str.isspace] on one character.  A [string] is read as a sequence of
    code points below 256; the white space among them is U+0009..U+000D,
    U+001C..U+0020, U+0085 and U+00A0. *)
Definition isspace (c : ascii) : bool :=
  let n := nat_of_ascii c in
  (((9 <=? n) && (n <=? 13)) || ((28 <=? n) && (n <=? 32))
 || (n =? 133) || (n =? 160))%nat.

(** [str.lstrip()]. *)
Fixpoint lstrip (s : string) : string :=
  match s with
  | EmptyString => EmptyString
  | String c r => if isspace c then lstrip r else s
  end.

(** [str.rstrip()]: a character is dropped when it is white space and
    nothing is left after it. *)
Fixpoint rstrip (s : string) : string :=
  match s with
  | EmptyString => EmptyString
  | String c r =>
      match rstrip r with
      | EmptyString => if isspace c then EmptyString else String c EmptyString
      | r' => String c r'
      end
  end.

(** [str.strip()]. *)
Definition strip (s : string) : string := rstrip (lstrip s).

(** The binary64 value nearest to an integer (ties to even). *)
Definition float_of_Z (z : Z) : float :=
  SF2Prim (binary_normalize prec emax z 0 false).

(** Conversion of an [int] to [float]: [OverflowError] when the integer is
    beyond the range of binary64. *)
Definition int_to_float (z : Z) : exn + float :=
  match binary_normalize prec emax z 0 false with
  | S754_infinity _ => inl OverflowError
  | _ => inr (float_of_Z z)
  end.

(** [a / b] for an [int] [a] and a [float] [b]: [a] is converted first,
    then a zero divisor raises. *)
Definition truediv (a : Z) (b : float) : exn + float :=
  match int_to_float a with
  | inl e => inl e
  | inr a' =>
      if PrimFloat.eqb b PrimFloat.zero then inl ZeroDivisionError
      else inr (PrimFloat.div a' b)
  end.

End Py.

Import Py.

(** ** Data *)

(** [pathlib.Path]; [str] is [str(path)]. *)
Record Path : Type := { str : string }.

(** The engine's configuration object, as the [set_string] calls made on
    [Decoder.default_config()], oldest first. *)
Definition Config : Type := list (string * string).

Definition default_config : Config := [].

Definition set_string (c : Config) (key value : string) : Config :=
  (c ++ [(key, value)])%list.

(** [pocketsphinx.Hypothesis]. *)
Record Hypothesis_ : Type := {
  hypstr : string;
  best_score : Z;
  prob : Z
}.

(** [rhasspyasr.Transcription]. *)
Record Transcription : Type := {
  text : string;
  likelihood : float;
  transcribe_seconds : float;
  wav_seconds : float
}.

(** [wave.Wave_read], as far as the adapter uses it. *)
Record Wave_read : Type := {
  getnframes : Z;
  getframerate : Z;
  readframes : Z -> bytes
}.

(** A call into the engine, as the adapter makes it. *)
Inductive Call : Type :=
| Call_Decoder (config : Config)
| Call_start_utt
| Call_process_raw (data : bytes) (no_search full_utt : bool)
| Call_end_utt
| Call_hyp (result : option Hypothesis_).

(** ** The collaborators *)

(** The [pocketsphinx] binding.  A decoder is a stateful object: every
    method may change it, and [start_utt], [process_raw] and [end_utt] may
    raise [RuntimeError] (the message is returned next to the state the
    object is left in). *)
Class Engine : Type := {
  DecoderState : Type;
  LogMath : Type;
  Decoder_new : Config -> string + DecoderState;
  start_utt : DecoderState -> DecoderState * option string;
  process_raw : DecoderState -> bytes -> bool -> bool -> DecoderState * option string;
  end_utt : DecoderState -> DecoderState * option string;
  hyp : DecoderState -> option Hypothesis_;
  get_logmath : DecoderState -> LogMath;
  exp : LogMath -> Z -> float
}.

(** Python's [wave] module and the operating system. *)
Class Runtime : Type := {
  wave_open : bytes -> wave_exn + Wave_read;
  path_exists : Path -> bool;
  clock : nat -> float;
  devnull : string
}.

Section Adapter.

Context {engine : Engine} {runtime : Runtime}.

(** A decoder object: the identity it got when it was constructed and its
    current state. *)
Record Decoder : Type := {
  handle : nat;
  state : DecoderState
}.

(** The attributes of a [PocketsphinxTranscriber] instance. *)
Record PocketsphinxTranscriber : Type := {
  acoustic_model : Path;
  dictionary : Path;
  language_model : Path;
  mllr_matrix : option Path;
  debug : bool;
  decoder : option Decoder
}.

(** What a method runs in: the instance, and what it has done to the world
    so far. *)
Record State : Type := {
  self : PocketsphinxTranscriber;
  (** the calls made into the engine, oldest first *)
  calls : list Call;
  (** how often [time.perf_counter] was read *)
  ticks : nat;
  (** the paths whose existence was checked *)
  probed : list Path;
  (** the records sent to the module's logger *)
  logged : list (string * float)
}.

(** State and exceptions: a raise keeps the state reached so far. *)
Definition M (A : Type) : Type := State -> (exn + A) * State.

Definition ret {A : Type} (a : A) : M A := fun s => (inr a, s).

Definition raise {A : Type} (e : exn) : M A := fun s => (inl e, s).

Definition bind {A B : Type} (m : M A) (k : A -> M B) : M B :=
  fun s =>
    match m s with
    | (inl e, s') => (inl e, s')
    | (inr a, s') => k a s'
    end.

Definition lift {A : Type} (r : exn + A) : M A := fun s => (r, s).

Notation "x <- m ;; k" := (bind m (fun x => k))
  (at level 61, m at next level, right associativity).
Notation "m ;;; k" := (bind m (fun _ => k))
  (at level 61, right associativity).

(** *** Attribute access *)

Definition get_self : M PocketsphinxTranscriber := fun s => (inr (self s), s).

Definition set_self (f : PocketsphinxTranscriber -> PocketsphinxTranscriber) : M unit :=
  fun s =>
    (inr tt,
     {| self := f (self s); calls := calls s; ticks := ticks s;
        probed := probed s; logged := logged s |}).

Definition with_acoustic_model (v : Path) (o : PocketsphinxTranscriber) :=
  {| acoustic_model := v; dictionary := dictionary o;
     language_model := language_model o; mllr_matrix := mllr_matrix o;
     debug := debug o; decoder := decoder o |}.

Definition with_dictionary (v : Path) (o : PocketsphinxTranscriber) :=
  {| acoustic_model := acoustic_model o; dictionary := v;
     language_model := language_model o; mllr_matrix := mllr_matrix o;
     debug := debug o; decoder := decoder o |}.

Definition with_language_model (v : Path) (o : PocketsphinxTranscriber) :=
  {| acoustic_model := acoustic_model o; dictionary := dictionary o;
     language_model := v; mllr_matrix := mllr_matrix o;
     debug := debug o; decoder := decoder o |}.

Definition with_mllr_matrix (v : option Path) (o : PocketsphinxTranscriber) :=
  {| acoustic_model := acoustic_model o; dictionary := dictionary o;
     language_model := language_model o; mllr_matrix := v;
     debug := debug o; decoder := decoder o |}.

Definition with_debug (v : bool) (o : PocketsphinxTranscriber) :=
  {| acoustic_model := acoustic_model o; dictionary := dictionary o;
     language_model := language_model o; mllr_matrix := mllr_matrix o;
     debug := v; decoder := decoder o |}.

Definition with_decoder (v : option Decoder) (o : PocketsphinxTranscriber) :=
  {| acoustic_model := acoustic_model o; dictionary := dictionary o;
     language_model := language_model o; mllr_matrix := mllr_matrix o;
     debug := debug o; decoder := v |}.

(** *** Calls into the collaborators *)

(** [time.perf_counter()]. *)
Definition perf_counter : M float :=
  fun s =>
    (inr (clock (ticks s)),
     {| self := self s; calls := calls s; ticks := S (ticks s);
        probed := probed s; logged := logged s |}).

(** [_LOGGER.debug(fmt, arg)]. *)
Definition LOGGER_debug (fmt : string) (arg : float) : M unit :=
  fun s =>
    (inr tt,
     {| self := self s; calls := calls s; ticks := ticks s;
        probed := probed s; logged := (logged s ++ [(fmt, arg)])%list |}).

(** [path.exists()] on a file system on which the call answers.  Where the
    call can raise as well, it is [Path_exists_os] below. *)
Definition Path_exists (p : Path) : M bool :=
  fun s =>
    (inr (path_exists p),
     {| self := self s; calls := calls s; ticks := ticks s;
        probed := (probed s ++ [p])%list; logged := logged s |}).

(** [pocketsphinx.Decoder(config)].  The call is recorded whether or not it
    succeeds; a new object is identified by the length of the trace before
    it. *)
Definition Decoder_ (config : Config) : M Decoder :=
  fun s =>
    let s' := {| self := self s;
                 calls := (calls s ++ [Call_Decoder config])%list;
                 ticks := ticks s; probed := probed s; logged := logged s |} in
    match Decoder_new config with
    | inl msg => (inl (RuntimeError msg), s')
    | inr d => (inr {| handle := List.length (calls s); state := d |}, s')
    end.

(** [self.decoder.m(...)] for a method [m] that changes the decoder; [c] is
    the record of the call. *)
Definition decoder_call (c : Call)
    (m : DecoderState -> DecoderState * option string) : M unit :=
  fun s =>
    match decoder (self s) with
    | None => (inl AttributeError, s)
    | Some d =>
        let (d', r) := m (state d) in
        let s' := {| self := with_decoder
                               (Some {| handle := handle d; state := d' |})
                               (self s);
                     calls := (calls s ++ [c])%list; ticks := ticks s;
                     probed := probed s; logged := logged s |} in
        match r with
        | Some msg => (inl (RuntimeError msg), s')
        | None => (inr tt, s')
        end
    end.

(** [self.decoder.hyp()]. *)
Definition decoder_hyp : M (option Hypothesis_) :=
  fun s =>
    match decoder (self s) with
    | None => (inl AttributeError, s)
    | Some d =>
        (inr (hyp (state d)),
         {| self := self s;
            calls := (calls s ++ [Call_hyp (hyp (state d))])%list;
            ticks := ticks s; probed := probed s; logged := logged s |})
    end.

(** [self.decoder.get_logmath()]. *)
Definition decoder_get_logmath : M LogMath :=
  fun s =>
    match decoder (self s) with
    | None => (inl AttributeError, s)
    | Some d => (inr (get_logmath (state d)), s)
    end.

(** [wave.open(io.BytesIO(wav_data))]. *)
Definition wave_open_ (wav_data : bytes) : M Wave_read :=
  match wave_open wav_data with
  | inl e => raise (WaveExn e)
  | inr w => ret w
  end.

(** ** The adapter *)

(** [PocketsphinxTranscriber.__init__]. *)
Definition __init__ (acoustic_model dictionary language_model : Path)
    (mllr_matrix : option Path) (debug : bool) : M unit :=
  set_self (with_acoustic_model acoustic_model) ;;;
  set_self (with_dictionary dictionary) ;;;
  set_self (with_language_model language_model) ;;;
  set_self (with_mllr_matrix mllr_matrix) ;;;
  set_self (with_debug debug) ;;;
  set_self (with_decoder None).

(** [PocketsphinxTranscriber.get_decoder]. *)
Definition get_decoder : M Decoder :=
  start_time <- perf_counter ;;
  this <- get_self ;;
  let decoder_config := default_config in
  let decoder_config := set_string decoder_config "-hmm" (str (acoustic_model this)) in
  let decoder_config := set_string decoder_config "-dict" (str (dictionary this)) in
  let decoder_config := set_string decoder_config "-lm" (str (language_model this)) in
  let decoder_config :=
    if negb (debug this) then set_string decoder_config "-logfn" devnull
    else decoder_config in
  decoder_config <-
    match mllr_matrix this with
    | Some p =>
        found <- Path_exists p ;;
        if found then ret (set_string decoder_config "-mllr" (str p))
        else ret decoder_config
    | None => ret decoder_config
    end ;;
  decoder <- Decoder_ decoder_config ;;
  end_time <- perf_counter ;;
  LOGGER_debug "Successfully loaded decoder in %s second(s)"
    (PrimFloat.sub end_time start_time) ;;;
  ret decoder.

(** [PocketsphinxTranscriber.transcribe_wav].  [frames / float(rate)] is
    [int_to_float] followed by [truediv]; [if hyp:] is the match on the
    decoder's answer, a [Hypothesis] object being true whatever its string
    and [None] false; without a hypothesis the method falls off its end and
    returns [None]. *)
Definition transcribe_wav (wav_data : bytes) : M (option Transcription) :=
  this <- get_self ;;
  match decoder this with
  | None =>
      d <- get_decoder ;;
      set_self (with_decoder (Some d))
  | Some _ => ret tt
  end ;;;
  wav_file <- wave_open_ wav_data ;;
  let frames := getnframes wav_file in
  let rate := getframerate wav_file in
  rate' <- lift (int_to_float rate) ;;
  wav_duration <- lift (truediv frames rate') ;;
  let audio_data := readframes wav_file (getnframes wav_file) in
  start_time <- perf_counter ;;
  decoder_call Call_start_utt start_utt ;;;
  decoder_call (Call_process_raw audio_data false true)
    (fun d => process_raw d audio_data false true) ;;;
  decoder_call Call_end_utt end_utt ;;;
  now <- perf_counter ;;
  let transcribe_seconds := PrimFloat.sub now start_time in
  LOGGER_debug "Decoded audio in %s second(s)" transcribe_seconds ;;;
  hyp <- decoder_hyp ;;
  match hyp with
  | Some h =>
      logmath <- decoder_get_logmath ;;
      ret (Some {| text := strip (hypstr h);
                   likelihood := exp logmath (prob h);
                   transcribe_seconds := transcribe_seconds;
                   wav_seconds := wav_duration |})
  | None => ret None
  end.

(** The part of [transcribe_wav] that follows the loading of the decoder
    (from [# Compute WAV duration] on). *)
Definition transcribe_loaded (wav_data : bytes) : M (option Transcription) :=
  wav_file <- wave_open_ wav_data ;;
  let frames := getnframes wav_file in
  let rate := getframerate wav_file in
  rate' <- lift (int_to_float rate) ;;
  wav_duration <- lift (truediv frames rate') ;;
  let audio_data := readframes wav_file (getnframes wav_file) in
  start_time <- perf_counter ;;
  decoder_call Call_start_utt start_utt ;;;
  decoder_call (Call_process_raw audio_data false true)
    (fun d => process_raw d audio_data false true) ;;;
  decoder_call Call_end_utt end_utt ;;;
  now <- perf_counter ;;
  let transcribe_seconds := PrimFloat.sub now start_time in
  LOGGER_debug "Decoded audio in %s second(s)" transcribe_seconds ;;;
  hyp <- decoder_hyp ;;
  match hyp with
  | Some h =>
      logmath <- decoder_get_logmath ;;
      ret (Some {| text := strip (hypstr h);
                   likelihood := exp logmath (prob h);
                   transcribe_seconds := transcribe_seconds;
                   wav_seconds := wav_duration |})
  | None => ret None
  end.

End Adapter.

(** ** Notions the properties are stated with *)

Section Notions.

Context {engine : Engine} {runtime : Runtime}.

(** The configuration [get_decoder] builds for an instance. *)
Definition decoder_config (this : PocketsphinxTranscriber) : Config :=
  let c := set_string default_config "-hmm" (str (acoustic_model this)) in
  let c := set_string c "-dict" (str (dictionary this)) in
  let c := set_string c "-lm" (str (language_model this)) in
  let c := if negb (debug this) then set_string c "-logfn" devnull else c in
  match mllr_matrix this with
  | Some p => if path_exists p then set_string c "-mllr" (str p) else c
  | None => c
  end.

(** The existence checks on record after [get_decoder] ran. *)
Definition probes_after (s : State) : list Path :=
  match mllr_matrix (self s) with
  | Some p => (probed s ++ [p])%list
  | None => probed s
  end.

(** The state [get_decoder] raises in when the engine refuses the
    configuration. *)
Definition refused (s : State) : State :=
  {| self := self s;
     calls := (calls s ++ [Call_Decoder (decoder_config (self s))])%list;
     ticks := S (ticks s); probed := probes_after s; logged := logged s |}.

(** The state in which [transcribe_wav] goes on after it built a decoder
    whose initial state is [d] and stored it. *)
Definition loaded (s : State) (d : DecoderState) : State :=
  {| self := with_decoder
               (Some {| handle := List.length (calls s); state := d |}) (self s);
     calls := (calls s ++ [Call_Decoder (decoder_config (self s))])%list;
     ticks := S (S (ticks s)); probed := probes_after s;
     logged := (logged s
                ++ [("Successfully loaded decoder in %s second(s)",
                     PrimFloat.sub (clock (S (ticks s))) (clock (ticks s)))])%list |}.

(** One utterance on the engine: [start_utt], [process_raw] of the whole
    buffer, [end_utt], stopping at the first call that raises. *)
Definition utterance (d : DecoderState) (audio : bytes) : DecoderState * option string :=
  let (d1, r1) := start_utt d in
  match r1 with
  | Some msg => (d1, Some msg)
  | None =>
      let (d2, r2) := process_raw d1 audio false true in
      match r2 with
      | Some msg => (d2, Some msg)
      | None => end_utt d2
      end
  end.

(** What the engine lets one observe of an utterance: the message it raised
    with, or the hypothesis string and its converted log-probability. *)
Definition heard (d : DecoderState) (audio : bytes) : string + option (string * float) :=
  let (d', r) := utterance d audio in
  match r with
  | Some msg => inl msg
  | None =>
      inr (option_map (fun h => (hypstr h, exp (get_logmath d') (prob h)))
             (hyp d'))
  end.


(** Modelled from the spec: the same recogniser.  The spec describes the
    cycle of one utterance (start_utt/process/end_utt) as "not observable
    outside the operation": an utterance, finished or abandoned, does not
    change what the handle answers afterwards, on whatever audio. *)
Definition utterance_unobservable : Prop :=
  forall (d : DecoderState) (before audio : bytes),
    heard (fst (utterance d before)) audio = heard d audio.

(** Modelled from the spec: the log-math conversion of the same engine.  The
    spec describes what [get_logmath().exp] makes of a hypothesis's
    log-probability as a "normalized probability (0-1)": for every
    hypothesis a decoder returns, the conversion of its log-probability is
    in [0, 1]. *)
Definition normalized_likelihood : Prop :=
  forall (d : DecoderState) (h : Hypothesis_),
    hyp d = Some h ->
    PrimFloat.leb PrimFloat.zero (exp (get_logmath d) (prob h))
    && PrimFloat.leb (exp (get_logmath d) (prob h)) PrimFloat.one = true.

(** The number of decoder constructions in a trace. *)
Fixpoint constructions (cs : list Call) : nat :=
  match cs with
  | [] => 0
  | Call_Decoder _ :: r => S (constructions r)
  | _ :: r => constructions r
  end.

(** The state after a series of [transcribe_wav] calls, whatever they
    return. *)
Fixpoint session (wavs : list bytes) (s : State) : State :=
  match wavs with
  | [] => s
  | w :: r => session r (snd (transcribe_wav w s))
  end.

(** The five configuration attributes of two instances coincide. *)
Definition same_settings (a b : PocketsphinxTranscriber) : Prop :=
  acoustic_model a = acoustic_model b /\ dictionary a = dictionary b
  /\ language_model a = language_model b /\ mllr_matrix a = mllr_matrix b
  /\ debug a = debug b.

(** Two states that differ at most in the adaptation matrix of the instance
    and in the record of existence checks. *)
Definition same_but_mllr (a b : State) : Prop :=
  acoustic_model (self a) = acoustic_model (self b)
  /\ dictionary (self a) = dictionary (self b)
  /\ language_model (self a) = language_model (self b)
  /\ debug (self a) = debug (self b)
  /\ decoder (self a) = decoder (self b)
  /\ calls a = calls b /\ ticks a = ticks b /\ logged a = logged b.

(** A result without its [transcribe_seconds]: the exception, or the text,
    the likelihood and the audio duration. *)
Definition observe (r : exn + option Transcription)
  : exn + option (string * float * float) :=
  match r with
  | inl e => inl e
  | inr None => inr None
  | inr (Some t) => inr (Some (text t, likelihood t, wav_seconds t))
  end.

(** Two results that agree in everything but [transcribe_seconds]. *)
Definition same_recognition (a b : exn + option Transcription) : Prop :=
  observe a = observe b.

(** The audio duration [transcribe_wav] computes from a parsed file. *)
Definition duration (w : Wave_read) : exn + float :=
  match int_to_float (getframerate w) with
  | inl e => inl e
  | inr rate => truediv (getnframes w) rate
  end.

(** What a call observes when the decoder it uses is in state [d]. *)
Definition recognise (d : DecoderState) (wav_data : bytes)
  : exn + option (string * float * float) :=
  match wave_open wav_data with
  | inl e => inl (WaveExn e)
  | inr w =>
      match duration w with
      | inl e => inl e
      | inr seconds =>
          match heard d (readframes w (getnframes w)) with
          | inl msg => inl (RuntimeError msg)
          | inr None => inr None
          | inr (Some (hs, p)) => inr (Some (strip hs, p, seconds))
          end
      end
  end.

End Notions.

(** ** The existence check in full

    [pathlib]'s [exists()] answers [False] when [stat] fails with ENOENT,
    ENOTDIR, EBADF or ELOOP and lets every other [OSError] through (a name
    that is too long, a directory that may not be searched).  [Stat] tells
    for which paths it does so; [get_decoder_os] and [transcribe_wav_os] are
    the two methods on such a file system.  Where [exists()] answers for the
    adaptation matrix they are [get_decoder] and [transcribe_wav]. *)

Class Stat : Type := {
  stat_error : Path -> option string
}.

Section FileSystem.

Context {engine : Engine} {runtime : Runtime} {stat : Stat}.

Notation "x <- m ;; k" := (bind m (fun x => k))
  (at level 61, m at next level, right associativity).
Notation "m ;;; k" := (bind m (fun _ => k))
  (at level 61, right associativity).

(** [path.exists()]: the check is on record whether it answers or raises. *)
Definition Path_exists_os (p : Path) : M bool :=
  fun s =>
    let s' := {| self := self s; calls := calls s; ticks := ticks s;
                 probed := (probed s ++ [p])%list; logged := logged s |} in
    match stat_error p with
    | Some msg => (inl (OSError msg), s')
    | None => (inr (path_exists p), s')
    end.

(** [PocketsphinxTranscriber.get_decoder]. *)
Definition get_decoder_os : M Decoder :=
  start_time <- perf_counter ;;
  this <- get_self ;;
  let decoder_config := default_config in
  let decoder_config := set_string decoder_config "-hmm" (str (acoustic_model this)) in
  let decoder_config := set_string decoder_config "-dict" (str (dictionary this)) in
  let decoder_config := set_string decoder_config "-lm" (str (language_model this)) in
  let decoder_config :=
    if negb (debug this) then set_string decoder_config "-logfn" devnull
    else decoder_config in
  decoder_config <-
    match mllr_matrix this with
    | Some p =>
        found <- Path_exists_os p ;;
        if found then ret (set_string decoder_config "-mllr" (str p))
        else ret decoder_config
    | None => ret decoder_config
    end ;;
  decoder <- Decoder_ decoder_config ;;
  end_time <- perf_counter ;;
  LOGGER_debug "Successfully loaded decoder in %s second(s)"
    (PrimFloat.sub end_time start_time) ;;;
  ret decoder.

(** [PocketsphinxTranscriber.transcribe_wav]. *)
Definition transcribe_wav_os (wav_data : bytes) : M (option Transcription) :=
  this <- get_self ;;
  match decoder this with
  | None =>
      d <- get_decoder_os ;;
      set_self (with_decoder (Some d))
  | Some _ => ret tt
  end ;;;
  wav_file <- wave_open_ wav_data ;;
  let frames := getnframes wav_file in
  let rate := getframerate wav_file in
  rate' <- lift (int_to_float rate) ;;
  wav_duration <- lift (truediv frames rate') ;;
  let audio_data := readframes wav_file (getnframes wav_file) in
  start_time <- perf_counter ;;
  decoder_call Call_start_utt start_utt ;;;
  decoder_call (Call_process_raw audio_data false true)
    (fun d => process_raw d audio_data false true) ;;;
  decoder_call Call_end_utt end_utt ;;;
  now <- perf_counter ;;
  let transcribe_seconds := PrimFloat.sub now start_time in
  LOGGER_debug "Decoded audio in %s second(s)" transcribe_seconds ;;;
  hyp <- decoder_hyp ;;
  match hyp with
  | Some h =>
      logmath <- decoder_get_logmath ;;
      ret (Some {| text := strip (hypstr h);
                   likelihood := exp logmath (prob h);
                   transcribe_seconds := transcribe_seconds;
                   wav_seconds := wav_duration |})
  | None => ret None
  end.

(** The message [exists()] raises with on the adaptation matrix of an
    instance, if it raises. *)
Definition exists_raises (this : PocketsphinxTranscriber) : option string :=
  match mllr_matrix this with
  | Some p => stat_error p
  | None => None
  end.

(** The state [get_decoder_os] raises in when [exists()] raised: the clock
    was read once and the check is on record. *)
Definition blocked (s : State) : State :=
  {| self := self s; calls := calls s; ticks := S (ticks s);
     probed := probes_after s; logged := logged s |}.

End FileSystem.

(** [0 <= x <= 1] on binary64 (false on NaN). *)
Definition in_unit_interval (x : float) : bool :=
  PrimFloat.leb PrimFloat.zero x && PrimFloat.leb x PrimFloat.one.

(** A string of white space only. *)
Fixpoint all_space (s : string) : bool :=
  match s with
  | EmptyString => true
  | String c r => isspace c && all_space r
  end.

Definition starts_with_space (s : string) : bool :=
  match s with
  | EmptyString => false
  | String c _ => isspace c
  end.

Fixpoint ends_with_space (s : string) : bool :=
  match s with
  | EmptyString => false
  | String c EmptyString => isspace c
  | String _ r => ends_with_space r
  end.

(** [t] is [s] without its leading and trailing white space. *)
Definition trimmed_from (s t : string) : Prop :=
  (exists l r, s = l ++ t ++ r /\ all_space l = true /\ all_space r = true)
  /\ starts_with_space t = false /\ ends_with_space t = false.

(** ** Sample collaborators

    Small implementations of [Runtime] and [Engine] on which the adapter can
    be run.  They stand in for the real [wave] module, file system, clock and
    recogniser; nothing about those is claimed from them. *)

Module Fixture.

Definition Z_of_byte (b : Byte.byte) : Z := Z.of_N (Byte.to_N b).

Definition byte_of_Z (z : Z) : Byte.byte :=
  match Byte.of_N (Z.to_N (z mod 256)) with
  | Some b => b
  | None => Byte.x00
  end.

(** Little-endian decoding and encoding. *)
Fixpoint le_decode (bs : bytes) : Z :=
  match bs with
  | [] => 0
  | b :: r => Z_of_byte b + 256 * le_decode r
  end.

Fixpoint le_encode (width : nat) (z : Z) : bytes :=
  match width with
  | O => []
  | S w => byte_of_Z z :: le_encode w (z / 256)
  end.

Definition slice (off len : nat) (data : bytes) : bytes :=
  firstn len (skipn off data).

Definition tag_is (t : string) (off : nat) (data : bytes) : bool :=
  if list_eq_dec Byte.byte_eq_dec (slice off 4 data) (list_byte_of_string t)
  then true else false.

(** A reader for the canonical layout only: a 44-byte header (RIFF, WAVE,
    a 16-byte PCM [fmt ] chunk, then [data]) followed by the samples. *)
Definition read_canonical (data : bytes) : wave_exn + Wave_read :=
  if (List.length data <? 12)%nat then inl EOFError
  else if negb (tag_is "RIFF" 0 data) then
    inl (wave_Error "file does not start with RIFF id")
  else if negb (tag_is "WAVE" 8 data) then inl (wave_Error "not a WAVE file")
  else if (List.length data <? 44)%nat then inl EOFError
  else if negb (tag_is "fmt " 12 data && tag_is "data" 36 data) then
    inl (wave_Error "fmt chunk and/or data chunk missing")
  else
    let format := le_decode (slice 20 2 data) in
    let nchannels := le_decode (slice 22 2 data) in
    let framerate := le_decode (slice 24 4 data) in
    let sampwidth := ((le_decode (slice 34 2 data) + 7) / 8)%Z in
    let size := le_decode (slice 40 4 data) in
    if negb (format =? 1)%Z then inl (wave_Error "unknown format")
    else if (sampwidth =? 0)%Z then inl (wave_Error "bad sample width")
    else if (nchannels =? 0)%Z then inl (wave_Error "bad # of channels")
    else
      let framesize := (nchannels * sampwidth)%Z in
      inr {| getnframes := (size / framesize)%Z;
             getframerate := framerate;
             readframes := fun n =>
               firstn (Z.to_nat (n * framesize)) (skipn 44 data) |}.

(** A mono, 16-bit file in that layout. *)
Definition wav_file (framerate : Z) (samples : bytes) : bytes :=
  let size := Z.of_nat (List.length samples) in
  (list_byte_of_string "RIFF" ++ le_encode 4 (36 + size)
   ++ list_byte_of_string "WAVE" ++ list_byte_of_string "fmt "
   ++ le_encode 4 16 ++ le_encode 2 1 ++ le_encode 2 1
   ++ le_encode 4 framerate ++ le_encode 4 (2 * framerate)
   ++ le_encode 2 2 ++ le_encode 2 16
   ++ list_byte_of_string "data" ++ le_encode 4 size ++ samples)%list.

(** The files that exist. *)
Definition installed : list string :=
  ["/model/hmm"; "/model/dict"; "/model/lm"; "/model/mllr"].

Definition on_disk (p : Path) : bool :=
  existsb (String.eqb (str p)) installed.

(** A clock whose [n]-th reading is [n * n] seconds. *)
Definition square_clock (n : nat) : float := float_of_Z (Z.of_nat (n * n)).

Definition runtime : Runtime :=
  {| wave_open := read_canonical;
     path_exists := on_disk;
     clock := square_clock;
     devnull := "/dev/null" |}.

(** A recogniser that keeps the samples of the current utterance and counts
    the utterances it has finished. *)
Record recogniser : Type := {
  finished : nat;
  samples : bytes
}.

Definition option_get (key : string) (c : Config) : option string :=
  match find (fun kv => String.eqb (fst kv) key) (rev c) with
  | Some kv => Some (snd kv)
  | None => None
  end.

Definition model_present (key : string) (c : Config) : bool :=
  match option_get key c with
  | Some v => on_disk {| str := v |}
  | None => false
  end.

Definition load_models (c : Config) : string + recogniser :=
  if model_present "-hmm" c && model_present "-dict" c && model_present "-lm" c
  then inr {| finished := 0; samples := [] |}
  else inl "new_Decoder returned -1".

Definition begin_utterance (d : recogniser) : recogniser * option string :=
  ({| finished := finished d; samples := [] |}, None).

Definition feed (d : recogniser) (data : bytes) (no_search full_utt : bool)
  : recogniser * option string :=
  match data with
  | [] => (d, Some "Decoder_process_raw returned -1")
  | _ => ({| finished := finished d; samples := (samples d ++ data)%list |}, None)
  end.

Definition finish_utterance (d : recogniser) : recogniser * option string :=
  ({| finished := S (finished d); samples := samples d |}, None).

Definition silent (data : bytes) : bool :=
  forallb (fun b => if Byte.byte_eq_dec b Byte.x00 then true else false) data.

(** The hypothesis is absent on silence; its log-probability is given by
    [score] from the number of finished utterances and the samples. *)
Definition best (score : nat -> bytes -> Z) (d : recogniser) : option Hypothesis_ :=
  if silent (samples d) then None
  else Some {| hypstr := " turn on the light ";
               best_score := -1000;
               prob := score (finished d) (samples d) |}.

(** Log-probabilities in base 2. *)
Definition pow2 (_ : unit) (p : Z) : float := Z.ldexp PrimFloat.one p.

Definition engine (score : nat -> bytes -> Z) : Engine :=
  {| DecoderState := recogniser;
     LogMath := unit;
     Decoder_new := load_models;
     start_utt := begin_utterance;
     process_raw := feed;
     end_utt := finish_utterance;
     hyp := best score;
     get_logmath := fun _ => tt;
     exp := pow2 |}.

(** A scoring that depends on the samples only. *)
Definition steady (_ : nat) (data : bytes) : Z := - Z.of_nat (List.length data).

(** The world before any instance exists. *)
Definition boot (score : nat -> bytes -> Z) : @State (engine score) :=
  {| self := {| acoustic_model := {| str := "" |}; dictionary := {| str := "" |};
                language_model := {| str := "" |}; mllr_matrix := None;
                debug := false; decoder := None |};
     calls := []; ticks := 0; probed := []; logged := [] |}.

(** [PocketsphinxTranscriber(hmm, "/model/dict", "/model/lm", mllr)]. *)
Definition instance (score : nat -> bytes -> Z) (hmm : string) (mllr : option string)
  : @State (engine score) :=
  snd (@__init__ (engine score) {| str := hmm |} {| str := "/model/dict" |}
         {| str := "/model/lm" |} (option_map (fun p => {| str := p |}) mllr) false
         (boot score)).

(** Four frames of speech and four of silence at 16 kHz, and a buffer that
    is no WAV file. *)
Definition speech : bytes :=
  wav_file 16000 (map byte_of_Z [12; 0; 250; 255; 40; 1; 7; 0]%Z).

Definition silence : bytes :=
  wav_file 16000 (map byte_of_Z [0; 0; 0; 0; 0; 0; 0; 0]%Z).

Definition garbage : bytes := list_byte_of_string "not a wav file at all".

(** An instance whose models are installed, and one whose acoustic model is
    missing. *)
Definition ready (score : nat -> bytes -> Z) : @State (engine score) :=
  instance score "/model/hmm" None.

Definition broken (score : nat -> bytes -> Z) : @State (engine score) :=
  instance score "/missing/hmm" None.

(** What the recogniser answers on [speech] under [steady], and what the
    adapter returns for it on a fresh [ready] instance. *)
Definition heard_speech : Hypothesis_ :=
  {| hypstr := " turn on the light "; best_score := -1000; prob := -8 |}.

Definition speech_transcription : Transcription :=
  {| text := "turn on the light";
     likelihood := 0.00390625%float;
     transcribe_seconds := 5%float;
     wav_seconds := PrimFloat.div 4 16000 |}.

End Fixture.


(** ** Notions for the further properties *)

(** The engine calls of one complete utterance on [audio], the decoder
    answering [x] at the end. *)
Definition utterance_calls (audio : bytes) (x : option Hypothesis_) : list Call :=
  [Call_start_utt; Call_process_raw audio false true; Call_end_utt; Call_hyp x].

(** The state a call leaves the decoder in, when it found it in [d]: where
    the utterance on the payload left it, if the bytes parse and have a
    duration, and [d] itself otherwise. *)
Definition state_after {engine : Engine} {runtime : Runtime}
    (d : DecoderState) (wav_data : bytes) : DecoderState :=
  match wave_open wav_data with
  | inl _ => d
  | inr w =>
      match duration w with
      | inl _ => d
      | inr _ => fst (utterance d (readframes w (getnframes w)))
      end
  end.

(** The number of log records written with the format [fmt]. *)
Fixpoint records_with (fmt : string) (log : list (string * float)) : nat :=
  match log with
  | [] => 0
  | (f, _) :: r =>
      if String.eqb f fmt then S (records_with fmt r) else records_with fmt r
  end.

(** Whether a result is a raised exception. *)
Definition raised {A : Type} (r : exn + A) : bool :=
  match r with
  | inl _ => true
  | inr _ => false
  end.

(** A sample engine whose hypothesis string is white space only: the
    sample recogniser with [hypstr] replaced. *)
Definition blank_engine : Engine :=
  {| DecoderState := Fixture.recogniser;
     LogMath := unit;
     Decoder_new := Fixture.load_models;
     start_utt := Fixture.begin_utterance;
     process_raw := Fixture.feed;
     end_utt := Fixture.finish_utterance;
     hyp := fun d =>
       option_map
         (fun h => {| hypstr := String (ascii_of_nat 9) "  ";
                      best_score := best_score h; prob := prob h |})
         (Fixture.best Fixture.steady d);
     get_logmath := fun _ => tt;
     exp := Fixture.pow2 |}.

(** A fresh instance on [blank_engine], its models installed. *)
Definition blank_ready : @State blank_engine :=
  snd (@__init__ blank_engine {| str := "/model/hmm" |} {| str := "/model/dict" |}
         {| str := "/model/lm" |} None false
         {| self := {| acoustic_model := {| str := "" |};
                       dictionary := {| str := "" |};
                       language_model := {| str := "" |}; mllr_matrix := None;
                       debug := false; decoder := None |};
            calls := []; ticks := 0; probed := []; logged := [] |}).

(** The sample instance after one call on the sample speech, and the same
    with another acoustic model path put in afterwards. *)
Definition warmed : @State (Fixture.engine Fixture.steady) :=
  snd (@transcribe_wav (Fixture.engine Fixture.steady) Fixture.runtime
         Fixture.speech (Fixture.ready Fixture.steady)).

Definition retuned : @State (Fixture.engine Fixture.steady) :=
  snd (@set_self (Fixture.engine Fixture.steady)
         (with_acoustic_model {| str := "/other/hmm" |}) warmed).

(** What the sample reader makes of a buffer it accepts. *)
Definition sample_parse (data : bytes) : Wave_read :=
  match Fixture.read_canonical data with
  | inr w => w
  | inl _ => {| getnframes := 0; getframerate := 0; readframes := fun _ => [] |}
  end.

(** The decoder of the sample engine that was built first, after [n]
    utterances, the last one on [data]. *)
Definition sample_decoder (n : nat) (data : bytes)
  : @Decoder (Fixture.engine Fixture.steady) :=
  @Build_Decoder (Fixture.engine Fixture.steady) 0
    {| Fixture.finished := n; Fixture.samples := data |}.

Definition speech_samples : bytes :=
  map Fixture.byte_of_Z [12; 0; 250; 255; 40; 1; 7; 0]%Z.

(** A file system on which a name of more than 255 characters makes [stat]
    fail with ENAMETOOLONG, and such a name. *)
Definition name_max : Stat :=
  {| stat_error := fun p =>
       if (255 <? String.length (str p))%nat then Some "File name too long"
       else None |}.

Definition long_name : Path :=
  {| str := string_of_list_ascii (repeat "a"%char 256) |}.

(** A file of four frames whose payload stops after two. *)
Definition truncated : bytes :=
  firstn 48 Fixture.speech.

(** A file without samples, and one whose header says 0 Hz. *)
Definition no_samples : bytes := Fixture.wav_file 16000 [].

Definition zero_rate : bytes :=
  Fixture.wav_file 0 (map Fixture.byte_of_Z [1; 0]%Z).

(** ** Proof steps *)

Ltac projections :=
  cbn [self calls ticks probed logged decoder acoustic_model dictionary
       language_model mllr_matrix debug handle state fst snd] in *.

Ltac unfold_loaded :=
  cbv beta iota delta
    [transcribe_loaded bind ret raise lift perf_counter LOGGER_debug
     decoder_call decoder_hyp decoder_get_logmath wave_open_ with_decoder] in *;
  projections.

(** Case analysis on the innermost scrutinee of the run in hypothesis [H]. *)
Ltac run_in H :=
  repeat (first
            [ match goal with
              | Hd : decoder (self _) = _ |- _ => rewrite Hd in H
              end
            | match type of H with
              | context [match ?x with _ => _ end] =>
                  lazymatch x with
                  | context [match _ with _ => _ end] => fail
                  | _ => destruct x eqn:?
                  end
              end ]; projections).

(** The same on the goal. *)
Ltac run_goal :=
  repeat (first
            [ match goal with
              | Hd : decoder (self _) = _ |- _ => rewrite Hd
              end
            | match goal with
              | |- context [match ?x with _ => _ end] =>
                  lazymatch x with
                  | context [match _ with _ => _ end] => fail
                  | _ => destruct x eqn:?
                  end
              end ]; projections).

Ltac finish_run H := inversion H; subst; clear H; projections.

(** ** White space *)

Lemma lstrip_split (s : string) :
  exists l, s = l ++ lstrip s /\ all_space l = true.
Proof.
  induction s as [|c r IH]; simpl.
  - exists EmptyString. split; reflexivity.
  - destruct (isspace c) eqn:Hc.
    + destruct IH as [l [Hr Hl]]. exists (String c l). simpl.
      rewrite Hc, Hl. split; [congruence | reflexivity].
    + exists EmptyString. split; reflexivity.
Qed.

Lemma rstrip_split (s : string) :
  exists r, s = rstrip s ++ r /\ all_space r = true.
Proof.
  induction s as [|c t IH]; simpl.
  - exists EmptyString. split; reflexivity.
  - destruct IH as [r [Ht Hr]].
    destruct (rstrip t) as [|c' t'] eqn:Hrs.
    + simpl in Ht. subst t. destruct (isspace c) eqn:Hc.
      * exists (String c r). simpl. rewrite Hc, Hr. split; reflexivity.
      * exists r. split; [reflexivity | assumption].
    + exists r. simpl in Ht |- *. split; [rewrite <- Ht; reflexivity | assumption].
Qed.

Lemma lstrip_head (s : string) : starts_with_space (lstrip s) = false.
Proof.
  induction s as [|c r IH]; simpl; [reflexivity|].
  destruct (isspace c) eqn:Hc; [assumption | simpl; assumption].
Qed.

Lemma rstrip_head (s : string) :
  starts_with_space s = false -> starts_with_space (rstrip s) = false.
Proof.
  destruct s as [|c r]; simpl; [reflexivity|]. intros Hc.
  destruct (rstrip r); [rewrite Hc|]; simpl; assumption.
Qed.

Lemma rstrip_last (s : string) : ends_with_space (rstrip s) = false.
Proof.
  induction s as [|c r IH]; simpl; [reflexivity|].
  destruct (rstrip r) as [|c' r'] eqn:Hr.
  - destruct (isspace c) eqn:Hc; simpl; [reflexivity | assumption].
  - exact IH.
Qed.

Lemma strip_trimmed (s : string) : trimmed_from s (strip s).
Proof.
  unfold trimmed_from, strip. split; [|split].
  - destruct (lstrip_split s) as [l [Hs Hl]].
    destruct (rstrip_split (lstrip s)) as [r [Ht Hr]].
    exists l, r. split; [|split; assumption].
    rewrite <- Ht. exact Hs.
  - apply rstrip_head, lstrip_head.
  - apply rstrip_last.
Qed.

(** ** Arithmetic *)

Lemma int_to_float_value (z : Z) (f : float) :
  int_to_float z = inr f -> f = float_of_Z z.
Proof.
  unfold int_to_float.
  destruct (binary_normalize prec emax z 0 false); congruence.
Qed.

Lemma truediv_value (a : Z) (b f : float) :
  truediv a b = inr f ->
  f = PrimFloat.div (float_of_Z a) b /\ PrimFloat.eqb b PrimFloat.zero = false.
Proof.
  unfold truediv. destruct (int_to_float a) as [e|a'] eqn:Ha; [discriminate|].
  apply int_to_float_value in Ha. subst a'.
  destruct (PrimFloat.eqb b PrimFloat.zero); [discriminate|].
  intros H. inversion H. split; reflexivity.
Qed.

Lemma int_to_float_error (z : Z) (e : exn) :
  int_to_float z = inl e -> e = OverflowError.
Proof.
  unfold int_to_float.
  destruct (binary_normalize prec emax z 0 false); congruence.
Qed.

Lemma truediv_error (a : Z) (b : float) (e : exn) :
  truediv a b = inl e -> e = OverflowError \/ e = ZeroDivisionError.
Proof.
  unfold truediv. destruct (int_to_float a) as [e'|a'] eqn:Ha.
  - intros H. inversion H; subst. left. eapply int_to_float_error; eassumption.
  - destruct (PrimFloat.eqb b PrimFloat.zero); [|discriminate].
    intros H. inversion H. right. reflexivity.
Qed.

(** ** The adapter's methods *)

Section Properties.

Context {engine : Engine} {runtime : Runtime}.

(** [get_decoder] in closed form: it hands [decoder_config] to the engine,
    checks the adaptation matrix when there is one, and reads the clock and
    logs a record a second time only when the engine returned a decoder. *)
Lemma get_decoder_run (s : State) :
  get_decoder s =
  match Decoder_new (decoder_config (self s)) with
  | inl msg => (inl (RuntimeError msg), refused s)
  | inr d =>
      (inr {| handle := List.length (calls s); state := d |},
       {| self := self s; calls := calls (loaded s d); ticks := ticks (loaded s d);
          probed := probed (loaded s d); logged := logged (loaded s d) |})
  end.
Proof.
  unfold refused, loaded, probes_after, get_decoder, decoder_config, bind, ret,
    get_self, perf_counter, Path_exists, Decoder_, LOGGER_debug.
  cbn [self calls ticks probed logged].
  destruct (mllr_matrix (self s)) as [p|]; cbn [self calls ticks probed logged].
  - destruct (path_exists p); cbn [self calls ticks probed logged];
      destruct (Decoder_new _); reflexivity.
  - destruct (Decoder_new _); reflexivity.
Qed.

(** The two phases of [transcribe_wav]. *)
Lemma transcribe_wav_warm (wav_data : bytes) (s : State) (d : Decoder) :
  decoder (self s) = Some d ->
  transcribe_wav wav_data s = transcribe_loaded wav_data s.
Proof.
  intros Hd.
  change (transcribe_wav wav_data s)
    with (match (match decoder (self s) with
                 | None => bind get_decoder (fun d => set_self (with_decoder (Some d)))
                 | Some _ => ret tt
                 end) s with
          | (inl e, s') => (inl e, s')
          | (inr _, s') => transcribe_loaded wav_data s'
          end).
  rewrite Hd. reflexivity.
Qed.

Lemma transcribe_wav_cold (wav_data : bytes) (s : State) :
  decoder (self s) = None ->
  transcribe_wav wav_data s =
  match Decoder_new (decoder_config (self s)) with
  | inl msg => (inl (RuntimeError msg), refused s)
  | inr d => transcribe_loaded wav_data (loaded s d)
  end.
Proof.
  intros Hd.
  change (transcribe_wav wav_data s)
    with (match (match decoder (self s) with
                 | None => bind get_decoder (fun d => set_self (with_decoder (Some d)))
                 | Some _ => ret tt
                 end) s with
          | (inl e, s') => (inl e, s')
          | (inr _, s') => transcribe_loaded wav_data s'
          end).
  rewrite Hd. unfold bind. rewrite get_decoder_run.
  destruct (Decoder_new _); reflexivity.
Qed.

Lemma In_set_string (c : Config) (k v k' v' : string) :
  In (k', v') (set_string c k v) <-> In (k', v') c \/ (k = k' /\ v = v').
Proof.
  unfold set_string. rewrite in_app_iff. simpl.
  split; (intros [H|H]; [left; exact H | right]).
  - destruct H as [H|[]]. inversion H. split; reflexivity.
  - destruct H as [-> ->]. left. reflexivity.
Qed.

(** The configuration carries an [-mllr] entry exactly for a matrix that was
    supplied and exists. *)
Lemma decoder_config_mllr (this : PocketsphinxTranscriber) (v : string) :
  In ("-mllr", v) (decoder_config this) <->
  exists p, mllr_matrix this = Some p /\ path_exists p = true /\ v = str p.
Proof.
  unfold decoder_config.
  assert (Hbase : forall c0,
             (c0 = set_string
                     (set_string (set_string default_config "-hmm"
                                    (str (acoustic_model this)))
                        "-dict" (str (dictionary this)))
                     "-lm" (str (language_model this))) ->
             ~ In ("-mllr", v)
                 (if negb (debug this) then set_string c0 "-logfn" devnull
                  else c0)).
  { intros c0 -> Hin.
    destruct (negb (debug this));
      repeat (apply In_set_string in Hin; destruct Hin as [Hin|[Hk _]];
              [|discriminate Hk]);
      exact Hin. }
  specialize (Hbase _ eq_refl).
  destruct (mllr_matrix this) as [p|].
  - destruct (path_exists p) eqn:Hp.
    + rewrite In_set_string. split.
      * intros [Hin|[_ Hv]]; [contradiction|]. exists p. auto.
      * intros [q [Hq [_ Hv]]]. inversion Hq; subst. right. auto.
    + split; [intros Hin; contradiction|].
      intros [q [Hq [Hex _]]]. inversion Hq; subst. congruence.
  - split; [intros Hin; contradiction|]. intros [q [Hq _]]. discriminate.
Qed.

Lemma constructions_app (a b : list Call) :
  constructions (a ++ b) = constructions a + constructions b.
Proof.
  induction a as [|c a IH]; simpl; [reflexivity|].
  destruct c; simpl; rewrite IH; reflexivity.
Qed.

(** *** What a call leaves alone *)

Lemma transcribe_loaded_frame (wav_data : bytes) (s s' : State) (d : Decoder)
    (r : exn + option Transcription) :
  decoder (self s) = Some d ->
  transcribe_loaded wav_data s = (r, s') ->
  same_settings (self s) (self s')
  /\ (exists d', decoder (self s') = Some d' /\ handle d' = handle d)
  /\ (exists new, calls s' = (calls s ++ new)%list /\ constructions new = 0)
  /\ probed s' = probed s.
Proof.
  intros Hd H. unfold_loaded. run_in H.
  all: finish_run H.
  all: repeat split; eauto.
  all: rewrite <- ?app_assoc;
    first [ eexists; split; [reflexivity | reflexivity]
          | exists []; split; [symmetry; apply app_nil_r | reflexivity] ].
Qed.

(** *** The result and the decoder's answer *)

Lemma transcribe_loaded_answer (wav_data : bytes) (s s' : State) (d : Decoder)
    (r : exn + option Transcription) :
  decoder (self s) = Some d ->
  transcribe_loaded wav_data s = (r, s') ->
  exists new,
    calls s' = (calls s ++ new)%list
    /\ ((exists t, r = inr (Some t)) <-> (exists h, In (Call_hyp (Some h)) new))
    /\ (r = inr None <-> In (Call_hyp None) new)
    /\ (forall x, In (Call_hyp x) new ->
        exists d', decoder (self s') = Some d' /\ hyp (state d') = x)
    /\ (forall c, In (Call_Decoder c) new -> False).
Proof.
  intros Hd H. unfold_loaded. run_in H.
  all: finish_run H.
  all: rewrite <- ?app_assoc;
    first [ eexists; split; [reflexivity |]
          | exists []; split; [symmetry; apply app_nil_r |] ].
  all: simpl; split; [split | split; [split | split]].
  all: try (intros [x Hx]; intuition congruence).
  all: try (intros Hx; intuition congruence).
  all: try (intros _; eexists; intuition eauto).
  all: try (intros c Hc; intuition congruence).
  all: intros x Hx; eexists; split; [reflexivity|]; cbn [state];
    intuition congruence.
Qed.

(** A parse error leaves [transcribe_loaded] at once, with the state as it
    found it. *)
Lemma transcribe_loaded_parse_error (wav_data : bytes) (s : State) (e : wave_exn) :
  wave_open wav_data = inl e ->
  transcribe_loaded wav_data s = (inl (WaveExn e), s).
Proof.
  intros Hw. unfold transcribe_loaded, bind, wave_open_. rewrite Hw. reflexivity.
Qed.

(** The fields of a returned [Transcription]. *)
Lemma transcribe_loaded_fields (wav_data : bytes) (s s' : State) (d : Decoder)
    (t : Transcription) :
  decoder (self s) = Some d ->
  transcribe_loaded wav_data s = (inr (Some t), s') ->
  exists w d' h,
    wave_open wav_data = inr w
    /\ decoder (self s') = Some d' /\ hyp (state d') = Some h
    /\ text t = strip (hypstr h)
    /\ likelihood t = exp (get_logmath (state d')) (prob h)
    /\ wav_seconds t
       = PrimFloat.div (float_of_Z (getnframes w)) (float_of_Z (getframerate w))
    /\ transcribe_seconds t
       = PrimFloat.sub (clock (S (ticks s))) (clock (ticks s)).
Proof.
  intros Hd H. unfold_loaded. run_in H.
  all: finish_run H.
  match goal with
  | E : int_to_float _ = inr _ |- _ => apply int_to_float_value in E; subst
  end.
  match goal with
  | E : truediv _ _ = inr _ |- _ => apply truediv_value in E; destruct E as [-> _]
  end.
  do 3 eexists; repeat split; eauto.
Qed.

(** What a call observes is [recognise] of the state its decoder is in. *)
Lemma transcribe_loaded_observe (wav_data : bytes) (s : State) (d : Decoder) :
  decoder (self s) = Some d ->
  observe (fst (transcribe_loaded wav_data s)) = recognise (state d) wav_data.
Proof.
  intros Hd. unfold recognise, duration, heard, utterance.
  unfold_loaded. run_goal.
  all: try discriminate; try reflexivity.
  all: repeat match goal with
         | E : (_, _) = (_, _) |- _ => inversion E; subst; clear E
         | E : inr _ = inr _ |- _ => inversion E; subst; clear E
         | E : inl _ = inl _ |- _ => inversion E; subst; clear E
         | E : Some _ = Some _ |- _ => inversion E; subst; clear E
         end.
  all: try discriminate; try reflexivity.
  all: simpl in *; try congruence.
Qed.

(** *** From the loaded phase to whole calls *)

Lemma loaded_settings (s : State) (d : DecoderState) :
  same_settings (self s) (self (loaded s d)).
Proof. repeat split. Qed.


(** A call on an instance that has a decoder keeps it and constructs
    nothing. *)
Lemma transcribe_wav_reuses (wav_data : bytes) (s : State) (d : Decoder) :
  decoder (self s) = Some d ->
  exists d',
    decoder (self (snd (transcribe_wav wav_data s))) = Some d'
    /\ handle d' = handle d
    /\ constructions (calls (snd (transcribe_wav wav_data s)))
       = constructions (calls s).
Proof.
  intros Hd. rewrite (transcribe_wav_warm _ _ _ Hd).
  destruct (transcribe_loaded wav_data s) as [r s'] eqn:H.
  destruct (transcribe_loaded_frame _ _ _ _ _ Hd H)
    as [_ [[d' [Hd' Hh]] [[new [Hc Hn]] _]]].
  exists d'. simpl. repeat split; try assumption.
  rewrite Hc, constructions_app, Hn. apply Nat.add_0_r.
Qed.




(** The trace of a whole call, and how the result depends on the decoder's
    answer in it. *)
Lemma transcribe_wav_answer (wav_data : bytes) (s s' : State)
    (r : exn + option Transcription) :
  transcribe_wav wav_data s = (r, s') ->
  exists new,
    calls s' = (calls s ++ new)%list
    /\ ((exists t, r = inr (Some t)) <-> (exists h, In (Call_hyp (Some h)) new))
    /\ (r = inr None <-> In (Call_hyp None) new)
    /\ (forall x, In (Call_hyp x) new ->
        exists d', decoder (self s') = Some d' /\ hyp (state d') = x).
Proof.
  intros H. destruct (decoder (self s)) as [d|] eqn:Hd.
  - rewrite (transcribe_wav_warm _ _ _ Hd) in H.
    destruct (transcribe_loaded_answer _ _ _ _ _ Hd H)
      as [new [Hc [Ht [Hn [Hx _]]]]].
    exists new. auto.
  - rewrite (transcribe_wav_cold _ _ Hd) in H.
    destruct (Decoder_new _) as [msg|d0].
    + inversion H; subst; clear H. exists [Call_Decoder (decoder_config (self s))].
      split; [reflexivity|]. simpl. repeat split.
      all: try (intros [x Hx]; intuition congruence).
      all: try (intros Hx; intuition congruence).
    + assert (Hl : decoder (self (loaded s d0))
                   = Some {| handle := List.length (calls s); state := d0 |})
        by reflexivity.
      destruct (transcribe_loaded_answer _ _ _ _ _ Hl H)
        as [new [Hc [Ht [Hn [Hx _]]]]].
      exists (Call_Decoder (decoder_config (self s)) :: new).
      split; [rewrite Hc; simpl; rewrite <- app_assoc; reflexivity|].
      simpl. repeat split.
      * intros Hr. destruct (proj1 Ht Hr) as [h Hh]. exists h. auto.
      * intros [h [Hh|Hh]]; [discriminate|]. apply Ht. exists h. exact Hh.
      * intros Hr. right. apply Hn. exact Hr.
      * intros [Hh|Hh]; [discriminate|]. apply Hn. exact Hh.
      * intros x [Hh|Hh]; [discriminate|]. apply Hx. exact Hh.
Qed.

Lemma transcribe_wav_fields (wav_data : bytes) (s s' : State) (t : Transcription) :
  transcribe_wav wav_data s = (inr (Some t), s') ->
  exists w d' h,
    wave_open wav_data = inr w
    /\ decoder (self s') = Some d' /\ hyp (state d') = Some h
    /\ text t = strip (hypstr h)
    /\ likelihood t = exp (get_logmath (state d')) (prob h)
    /\ wav_seconds t
       = PrimFloat.div (float_of_Z (getnframes w)) (float_of_Z (getframerate w)).
Proof.
  intros H. destruct (decoder (self s)) as [d|] eqn:Hd.
  - rewrite (transcribe_wav_warm _ _ _ Hd) in H.
    destruct (transcribe_loaded_fields _ _ _ _ _ Hd H)
      as [w [d' [h [? [? [? [? [? [? _]]]]]]]]].
    exists w, d', h. repeat split; assumption.
  - rewrite (transcribe_wav_cold _ _ Hd) in H.
    destruct (Decoder_new _) as [msg|d0]; [discriminate|].
    assert (Hl : decoder (self (loaded s d0))
                 = Some {| handle := List.length (calls s); state := d0 |})
      by reflexivity.
    destruct (transcribe_loaded_fields _ _ _ _ _ Hl H)
      as [w [d' [h [? [? [? [? [? [? _]]]]]]]]].
    exists w, d', h. repeat split; assumption.
Qed.

(** The guard on [self.decoder] never fires: no call raises
    [AttributeError]. *)
Lemma transcribe_loaded_no_attribute_error (wav_data : bytes) (s : State)
    (d : Decoder) :
  decoder (self s) = Some d ->
  fst (transcribe_loaded wav_data s) <> inl AttributeError.
Proof.
  intros Hd. unfold_loaded. run_goal.
  all: cbn [fst]; try discriminate.
  all: intros H; inversion H; subst.
  all: match goal with
       | E : int_to_float _ = inl _ |- _ =>
           apply int_to_float_error in E; discriminate E
       | E : truediv _ _ = inl _ |- _ =>
           apply truediv_error in E; destruct E; discriminate
       end.
Qed.

Lemma transcribe_wav_no_attribute_error (wav_data : bytes) (s : State) :
  fst (transcribe_wav wav_data s) <> inl AttributeError.
Proof.
  destruct (decoder (self s)) as [d|] eqn:Hd.
  - rewrite (transcribe_wav_warm _ _ _ Hd).
    apply (transcribe_loaded_no_attribute_error _ _ _ Hd).
  - rewrite (transcribe_wav_cold _ _ Hd).
    destruct (Decoder_new _) as [msg|d0]; [discriminate|].
    eapply transcribe_loaded_no_attribute_error. reflexivity.
Qed.

(** *** Results *)

(** C1.  A call returns a [Transcription] exactly when the decoder, asked for
    its hypothesis during the call, returned one, and returns [None] exactly
    when the decoder returned none; so a decoder that returns no hypothesis
    never makes the call raise. *)
Theorem transcription_iff_hypothesis (wav_data : bytes) (s s' : State)
    (r : exn + option Transcription) :
  transcribe_wav wav_data s = (r, s') ->
  exists new,
    calls s' = (calls s ++ new)%list
    /\ ((exists t, r = inr (Some t)) <-> (exists h, In (Call_hyp (Some h)) new))
    /\ (r = inr None <-> In (Call_hyp None) new).
Proof.
  intros H. destruct (transcribe_wav_answer _ _ _ _ H) as [new [Hc [Ht [Hn _]]]].
  exists new. auto.
Qed.

(** C2.  The [wav_seconds] of a returned [Transcription] is the frame count
    of the parsed file divided, in binary64, by its sample rate. *)
Theorem wav_seconds_is_frames_over_rate (wav_data : bytes) (s s' : State)
    (t : Transcription) :
  transcribe_wav wav_data s = (inr (Some t), s') ->
  exists w,
    wave_open wav_data = inr w
    /\ wav_seconds t
       = PrimFloat.div (float_of_Z (getnframes w)) (float_of_Z (getframerate w)).
Proof.
  intros H.
  destruct (transcribe_wav_fields _ _ _ _ H) as [w [_ [_ [Hw [_ [_ [_ [_ Hs]]]]]]]].
  exists w. split; assumption.
Qed.

(** On a buffer that [wave.open] rejects, where [exists()] answers: the
    parse error when the instance has a decoder or the engine builds one,
    the engine's error when the decoder has to be built first and the
    engine refuses. *)
Lemma rejected_bytes_where_exists_answers (wav_data : bytes) (s : State)
    (e : wave_exn) :
  wave_open wav_data = inl e ->
  fst (transcribe_wav wav_data s)
  = match decoder (self s), Decoder_new (decoder_config (self s)) with
    | None, inl msg => inl (RuntimeError msg)
    | _, _ => inl (WaveExn e)
    end.
Proof.
  intros Hw. destruct (decoder (self s)) as [d|] eqn:Hd.
  - rewrite (transcribe_wav_warm _ _ _ Hd).
    rewrite (transcribe_loaded_parse_error _ _ _ Hw). reflexivity.
  - rewrite (transcribe_wav_cold _ _ Hd).
    destruct (Decoder_new _) as [msg|d0]; [reflexivity|].
    rewrite (transcribe_loaded_parse_error _ _ _ Hw). reflexivity.
Qed.

(** C7.  When the decoder returned a hypothesis during the call, the call
    returns a [Transcription] whose text is the hypothesis string without
    its leading and trailing white space and whose likelihood is the
    decoder's log-math [exp] of the hypothesis's log-probability. *)
Theorem text_trimmed_likelihood_converted (wav_data : bytes) (s s' : State)
    (r : exn + option Transcription) (new : list Call) (h : Hypothesis_) :
  transcribe_wav wav_data s = (r, s') ->
  calls s' = (calls s ++ new)%list ->
  In (Call_hyp (Some h)) new ->
  exists t d,
    r = inr (Some t)
    /\ text t = strip (hypstr h)
    /\ trimmed_from (hypstr h) (text t)
    /\ decoder (self s') = Some d
    /\ likelihood t = exp (get_logmath (state d)) (prob h).
Proof.
  intros H Hc Hin.
  destruct (transcribe_wav_answer _ _ _ _ H) as [new' [Hc' [Ht [_ Hx]]]].
  assert (new' = new)
    by (apply (app_inv_head (calls s)); rewrite <- Hc, <- Hc'; reflexivity).
  subst new'.
  destruct (proj2 Ht (ex_intro _ h Hin)) as [t ->].
  destruct (Hx _ Hin) as [d [Hd Hh]].
  destruct (transcribe_wav_fields _ _ _ _ H)
    as [w [d' [h' [_ [Hd' [Hh' [Htext [Hlike _]]]]]]]].
  assert (d' = d) by congruence. subst d'.
  assert (h' = h) by congruence. subst h'.
  exists t, d. repeat split; try assumption.
  all: rewrite Htext; apply strip_trimmed.
Qed.

(** *** Construction *)

(** C9.  [__init__] cannot raise; whatever the instance held before, it
    stores its five arguments and sets the decoder to [None], and it does
    nothing else: no call into the engine, no clock reading, no log record
    and no existence check, the adaptation matrix included. *)
Theorem init_only_stores_fields (am dict lm : Path) (mllr : option Path)
    (dbg : bool) (s : State) :
  exists s',
    __init__ am dict lm mllr dbg s = (inr tt, s')
    /\ acoustic_model (self s') = am /\ dictionary (self s') = dict
    /\ language_model (self s') = lm /\ mllr_matrix (self s') = mllr
    /\ debug (self s') = dbg /\ decoder (self s') = None
    /\ calls s' = calls s /\ ticks s' = ticks s
    /\ probed s' = probed s /\ logged s' = logged s.
Proof.
  unfold __init__, bind, set_self. cbn [self calls ticks probed logged].
  eexists. split; [reflexivity|].
  cbn [self calls ticks probed logged with_acoustic_model with_dictionary
       with_language_model with_mllr_matrix with_debug with_decoder
       acoustic_model dictionary language_model mllr_matrix debug decoder].
  repeat split.
Qed.

(** *** The adaptation matrix *)

Lemma decoder_config_skips_missing (a b : PocketsphinxTranscriber) (p : Path) :
  acoustic_model a = acoustic_model b -> dictionary a = dictionary b ->
  language_model a = language_model b -> debug a = debug b ->
  mllr_matrix a = Some p -> path_exists p = false -> mllr_matrix b = None ->
  decoder_config a = decoder_config b.
Proof.
  intros Ha Hdi Hl Hdb Hm Hp Hn. unfold decoder_config.
  rewrite Ha, Hdi, Hl, Hdb, Hm, Hn, Hp. reflexivity.
Qed.

Lemma transcribe_loaded_same_but_mllr (wav_data : bytes) (a b : State) :
  same_but_mllr a b ->
  fst (transcribe_loaded wav_data a) = fst (transcribe_loaded wav_data b)
  /\ same_but_mllr (snd (transcribe_loaded wav_data a))
       (snd (transcribe_loaded wav_data b)).
Proof.
  destruct a as [[am di lm ml db de] ca ti pr lo].
  destruct b as [[am' di' lm' ml' db' de'] ca' ti' pr' lo'].
  unfold same_but_mllr. cbn [self calls ticks probed logged decoder
    acoustic_model dictionary language_model mllr_matrix debug].
  intros [-> [-> [-> [-> [-> [-> [-> ->]]]]]]].
  unfold_loaded. run_goal.
  all: repeat split; reflexivity.
Qed.

(** Where [exists()] answers: the configuration handed to the engine has an
    [-mllr] entry exactly when a matrix path was supplied and exists, and
    the entry is that path.  A supplied path that does not exist changes
    nothing: [get_decoder] and [transcribe_wav] return what they return for
    an instance without matrix, and leave the same state but for the
    recorded existence check. *)
Lemma mllr_where_exists_answers (s : State) :
  (exists config,
      calls (snd (get_decoder s)) = (calls s ++ [Call_Decoder config])%list
      /\ forall v,
          In ("-mllr", v) config <->
          exists p, mllr_matrix (self s) = Some p /\ path_exists p = true
                    /\ v = str p)
  /\ (forall (p : Path) (s0 : State),
        mllr_matrix (self s) = Some p -> path_exists p = false ->
        mllr_matrix (self s0) = None -> same_but_mllr s s0 ->
        fst (get_decoder s) = fst (get_decoder s0)
        /\ same_but_mllr (snd (get_decoder s)) (snd (get_decoder s0))
        /\ forall wav_data,
            fst (transcribe_wav wav_data s) = fst (transcribe_wav wav_data s0)
            /\ same_but_mllr (snd (transcribe_wav wav_data s))
                 (snd (transcribe_wav wav_data s0))).
Proof.
  split.
  - exists (decoder_config (self s)). split.
    + rewrite get_decoder_run. destruct (Decoder_new _); reflexivity.
    + apply decoder_config_mllr.
  - intros p s0 Hm Hp Hn Hsame.
    pose proof Hsame as [Ha [Hdi [Hl [Hdb [Hde [Hc [Ht Hlo]]]]]]].
    assert (Hcfg : decoder_config (self s) = decoder_config (self s0))
      by (eapply decoder_config_skips_missing; eassumption).
    split; [|split].
    + rewrite !get_decoder_run, Hcfg, Hc. destruct (Decoder_new _); reflexivity.
    + rewrite !get_decoder_run, Hcfg.
      destruct (Decoder_new _); unfold same_but_mllr; simpl;
        rewrite Hcfg, Hc, Ht, Hlo; repeat split; assumption.
    + intros wav_data. destruct (decoder (self s0)) as [d|] eqn:Hd.
      * rewrite (transcribe_wav_warm _ _ _ Hd), (transcribe_wav_warm _ _ _ Hde).
        apply transcribe_loaded_same_but_mllr. exact Hsame.
      * rewrite (transcribe_wav_cold _ _ Hd), (transcribe_wav_cold _ _ Hde).
        rewrite Hcfg. destruct (Decoder_new _) as [msg|d0].
        -- simpl. split; [reflexivity|]. unfold same_but_mllr. simpl.
           rewrite Hcfg, Hc, Ht. repeat split; congruence.
        -- apply transcribe_loaded_same_but_mllr. unfold same_but_mllr. simpl.
           rewrite Hcfg, Hc, Ht, Hlo. repeat split; congruence.
Qed.

(** *** The decoder handle *)



Lemma transcribe_loaded_wave_exn (wav_data : bytes) (s s' : State) (e : wave_exn) :
  transcribe_loaded wav_data s = (inl (WaveExn e), s') ->
  wave_open wav_data = inl e /\ s' = s.
Proof.
  intros H. unfold_loaded. run_in H.
  all: finish_run H; try (split; reflexivity).
  all: try match goal with
         | E : int_to_float _ = inl _ |- _ =>
             apply int_to_float_error in E; discriminate E
         | E : truediv _ _ = inl _ |- _ =>
             apply truediv_error in E; destruct E; discriminate
         end.
Qed.

(** C10.  When the first call on an instance without decoder raises the
    parse error of [wave.open], the decoder was built before the parse and
    is stored in the instance: the engine was called exactly for the
    construction, and the next call reuses the handle without asking the
    engine for another. *)
Theorem parse_failure_keeps_decoder (wav_data : bytes) (s s' : State)
    (e : wave_exn) :
  decoder (self s) = None ->
  transcribe_wav wav_data s = (inl (WaveExn e), s') ->
  wave_open wav_data = inl e
  /\ exists d,
      decoder (self s') = Some d
      /\ calls s' = (calls s ++ [Call_Decoder (decoder_config (self s))])%list
      /\ forall next,
          exists d',
            decoder (self (snd (transcribe_wav next s'))) = Some d'
            /\ handle d' = handle d
            /\ constructions (calls (snd (transcribe_wav next s')))
               = constructions (calls s').
Proof.
  intros Hd H. rewrite (transcribe_wav_cold _ _ Hd) in H.
  destruct (Decoder_new (decoder_config (self s))) as [msg|d0]; [discriminate|].
  apply transcribe_loaded_wave_exn in H. destruct H as [Hw ->].
  split; [exact Hw|].
  exists {| handle := List.length (calls s); state := d0 |}.
  split; [reflexivity|]. split; [reflexivity|].
  intros next. apply transcribe_wav_reuses. reflexivity.
Qed.

(** *** Repeated calls *)

Lemma transcribe_wav_observe (wav_data : bytes) (s : State) (d : Decoder) :
  decoder (self s) = Some d ->
  observe (fst (transcribe_wav wav_data s)) = recognise (state d) wav_data.
Proof.
  intros Hd. rewrite (transcribe_wav_warm _ _ _ Hd).
  apply transcribe_loaded_observe. exact Hd.
Qed.

(** The decoder a call leaves behind: the same handle, in [state_after]. *)
Lemma transcribe_loaded_decoder_after (wav_data : bytes) (s : State) (d : Decoder) :
  decoder (self s) = Some d ->
  decoder (self (snd (transcribe_loaded wav_data s)))
  = Some {| handle := handle d; state := state_after (state d) wav_data |}.
Proof.
  intros Hd. destruct d as [n d]. unfold state_after, duration, utterance.
  cbn [handle state].
  unfold_loaded. run_goal.
  all: try discriminate; try reflexivity.
  all: repeat match goal with
         | E : (_, _) = (_, _) |- _ => inversion E; subst; clear E
         | E : inr _ = inr _ |- _ => inversion E; subst; clear E
         | E : inl _ = inl _ |- _ => inversion E; subst; clear E
         end.
  all: try discriminate; try reflexivity; try congruence.
Qed.

(** What a call observes after another call on the same instance, when the
    engine answers [wav_data] from the state the other call leaves as from
    the state it found. *)
Lemma observe_after (before wav_data : bytes) (s : State) :
  (forall d : DecoderState,
      recognise (state_after d before) wav_data = recognise d wav_data) ->
  observe (fst (transcribe_wav wav_data s))
  = observe (fst (transcribe_wav wav_data (snd (transcribe_wav before s)))).
Proof.
  intros Hrec. destruct (decoder (self s)) as [d|] eqn:Hd.
  - pose proof (transcribe_loaded_decoder_after before s d Hd) as Hd1.
    rewrite <- (transcribe_wav_warm _ _ _ Hd) in Hd1.
    rewrite (transcribe_wav_observe _ _ _ Hd), (transcribe_wav_observe _ _ _ Hd1).
    cbn [state]. symmetry. apply Hrec.
  - destruct (Decoder_new (decoder_config (self s))) as [msg|d0] eqn:Hnew.
    + rewrite (transcribe_wav_cold before _ Hd), Hnew. cbn [snd].
      assert (Hr : decoder (self (refused s)) = None) by exact Hd.
      rewrite (transcribe_wav_cold _ _ Hd), (transcribe_wav_cold _ _ Hr).
      cbn [refused self]. rewrite Hnew. reflexivity.
    + assert (Hl : decoder (self (loaded s d0))
                   = Some {| handle := List.length (calls s); state := d0 |})
        by reflexivity.
      pose proof (transcribe_loaded_decoder_after before _ _ Hl) as Hd1.
      rewrite (transcribe_wav_cold before _ Hd), Hnew.
      rewrite (transcribe_wav_observe _ _ _ Hd1).
      rewrite (transcribe_wav_cold _ _ Hd), Hnew.
      rewrite (transcribe_loaded_observe _ _ _ Hl).
      cbn [state]. symmetry. apply Hrec.
Qed.


Lemma recognise_after_any (d : DecoderState) (before wav_data : bytes) :
  utterance_unobservable ->
  recognise (state_after d before) wav_data = recognise d wav_data.
Proof.
  intros Hun. unfold recognise, state_after.
  destruct (wave_open wav_data) as [e|w]; [reflexivity|].
  destruct (duration w) as [e|seconds]; [reflexivity|].
  destruct (wave_open before) as [e|w']; [reflexivity|].
  destruct (duration w'); [reflexivity|].
  rewrite Hun. reflexivity.
Qed.

End Properties.

(** ** The methods where [exists()] may raise *)

Section FileSystemProperties.

Context {engine : Engine} {runtime : Runtime} {stat : Stat}.

(** [get_decoder_os] is [get_decoder] unless [exists()] raises; then it
    raises as well, before the engine is asked. *)
Lemma get_decoder_os_run (s : State) :
  get_decoder_os s
  = match exists_raises (self s) with
    | Some msg => (inl (OSError msg), blocked s)
    | None => get_decoder s
    end.
Proof.
  unfold exists_raises, blocked, probes_after, get_decoder_os, get_decoder,
    bind, ret, get_self, perf_counter, Path_exists_os, Path_exists, Decoder_,
    LOGGER_debug.
  cbn [self calls ticks probed logged].
  destruct (mllr_matrix (self s)) as [p|]; [|reflexivity].
  cbn [self calls ticks probed logged].
  destruct (stat_error p); reflexivity.
Qed.

Lemma transcribe_wav_os_run (wav_data : bytes) (s : State) :
  transcribe_wav_os wav_data s
  = match decoder (self s), exists_raises (self s) with
    | None, Some msg => (inl (OSError msg), blocked s)
    | _, _ => transcribe_wav wav_data s
    end.
Proof.
  change (transcribe_wav_os wav_data s)
    with (match (match decoder (self s) with
                 | None => bind get_decoder_os
                             (fun d => set_self (with_decoder (Some d)))
                 | Some _ => ret tt
                 end) s with
          | (inl e, s') => (inl e, s')
          | (inr _, s') => transcribe_loaded wav_data s'
          end).
  change (transcribe_wav wav_data s)
    with (match (match decoder (self s) with
                 | None => bind get_decoder
                             (fun d => set_self (with_decoder (Some d)))
                 | Some _ => ret tt
                 end) s with
          | (inl e, s') => (inl e, s')
          | (inr _, s') => transcribe_loaded wav_data s'
          end).
  destruct (decoder (self s)) as [d|]; [reflexivity|].
  unfold bind. rewrite get_decoder_os_run.
  destruct (exists_raises (self s)); reflexivity.
Qed.


(** C3, as the code has it.  On a buffer that [wave.open] rejects the call
    always raises, and never returns: it raises the error of [wave.open]
    when the instance has a decoder or builds one, and the error of the
    building when the decoder has to be built first and that fails, by
    [exists()] raising on the adaptation matrix or by the engine refusing
    the configuration; the bytes are then never parsed. *)
Theorem rejected_bytes_raise (wav_data : bytes) (s : State) (e : wave_exn) :
  wave_open wav_data = inl e ->
  fst (transcribe_wav_os wav_data s)
  = match decoder (self s) with
    | Some _ => inl (WaveExn e)
    | None =>
        match exists_raises (self s) with
        | Some msg => inl (OSError msg)
        | None =>
            match Decoder_new (decoder_config (self s)) with
            | inl msg => inl (RuntimeError msg)
            | inr _ => inl (WaveExn e)
            end
        end
    end.
Proof.
  intros Hw. rewrite transcribe_wav_os_run.
  pose proof (rejected_bytes_where_exists_answers wav_data s e Hw) as Hb.
  destruct (decoder (self s)) as [d|]; [exact Hb|].
  destruct (exists_raises (self s)); [reflexivity|].
  rewrite Hb. destruct (Decoder_new _); reflexivity.
Qed.

(** C4, as the code has it.  When [exists()] raises on the supplied matrix
    path, [get_decoder] raises that error and the engine is not asked.
    Otherwise the configuration handed to the engine has an [-mllr] entry
    exactly when a matrix path was supplied and [exists()] answered true,
    and the entry is that path; and a supplied path for which [exists()]
    answers false changes nothing: [get_decoder] and [transcribe_wav]
    return what they return for an instance without matrix, and leave the
    same state but for the recorded existence check. *)
Theorem mllr_set_iff_exists_answers_true (s : State) :
  match exists_raises (self s) with
  | Some msg =>
      get_decoder_os s = (inl (OSError msg), blocked s)
      /\ calls (blocked s) = calls s
  | None =>
      exists config,
        calls (snd (get_decoder_os s)) = (calls s ++ [Call_Decoder config])%list
        /\ forall v,
            In ("-mllr", v) config <->
            exists p, mllr_matrix (self s) = Some p /\ stat_error p = None
                      /\ path_exists p = true /\ v = str p
  end
  /\ (forall (p : Path) (s0 : State),
        mllr_matrix (self s) = Some p -> stat_error p = None ->
        path_exists p = false ->
        mllr_matrix (self s0) = None -> same_but_mllr s s0 ->
        fst (get_decoder_os s) = fst (get_decoder_os s0)
        /\ same_but_mllr (snd (get_decoder_os s)) (snd (get_decoder_os s0))
        /\ forall wav_data,
            fst (transcribe_wav_os wav_data s)
            = fst (transcribe_wav_os wav_data s0)
            /\ same_but_mllr (snd (transcribe_wav_os wav_data s))
                 (snd (transcribe_wav_os wav_data s0))).
Proof.
  split.
  - rewrite get_decoder_os_run.
    destruct (exists_raises (self s)) as [msg|] eqn:Hr; [split; reflexivity|].
    destruct (proj1 (mllr_where_exists_answers s)) as [config [Hc Hin]].
    exists config. split; [exact Hc|]. intros v. rewrite Hin.
    split; intros [p [Hm H]]; exists p; split; try exact Hm.
    + split; [|exact H]. unfold exists_raises in Hr. rewrite Hm in Hr. exact Hr.
    + apply H.
  - intros p s0 Hm Hst Hp Hn Hsame.
    assert (Hr : exists_raises (self s) = None)
      by (unfold exists_raises; rewrite Hm; exact Hst).
    assert (Hr0 : exists_raises (self s0) = None)
      by (unfold exists_raises; rewrite Hn; reflexivity).
    destruct (proj2 (mllr_where_exists_answers s) p s0 Hm Hp Hn Hsame)
      as [Hg [Hgs Hw]].
    rewrite !get_decoder_os_run, Hr, Hr0.
    split; [exact Hg|]. split; [exact Hgs|].
    intros wav_data. rewrite !transcribe_wav_os_run, Hr, Hr0.
    destruct (decoder (self s)); destruct (decoder (self s0)); apply Hw.
Qed.

(** C6.  On an engine whose log-math conversion of a returned hypothesis's
    log-probability is a normalized probability, the likelihood of every
    [Transcription] a call returns is in [0, 1]: the adapter hands the
    engine's value on unchanged. *)
Theorem likelihood_in_unit_interval (wav_data : bytes) (s s' : State)
    (t : Transcription) :
  normalized_likelihood ->
  transcribe_wav_os wav_data s = (inr (Some t), s') ->
  in_unit_interval (likelihood t) = true.
Proof.
  intros Hnorm H. rewrite transcribe_wav_os_run in H.
  assert (Hb : transcribe_wav wav_data s = (inr (Some t), s')).
  { destruct (decoder (self s)); [exact H|].
    destruct (exists_raises (self s)); [discriminate H | exact H]. }
  destruct (transcribe_wav_fields _ _ _ _ Hb)
    as [w [d [h [_ [_ [Hh [_ [Hlike _]]]]]]]].
  rewrite Hlike. exact (Hnorm _ _ Hh).
Qed.


(** X5.  The methods of [self.decoder] are never called on [None]: whatever
    a call is given and whatever state the instance is in, it does not
    raise the [AttributeError] of such a call. *)
Theorem decoder_methods_never_on_None (wav_data : bytes) (s : State) :
  fst (transcribe_wav_os wav_data s) <> inl AttributeError.
Proof.
  rewrite transcribe_wav_os_run.
  destruct (decoder (self s)); [apply transcribe_wav_no_attribute_error|].
  destruct (exists_raises (self s));
    [discriminate | apply transcribe_wav_no_attribute_error].
Qed.

End FileSystemProperties.

(** ** The properties on the sample collaborators *)

Example run_speech :
  fst (@transcribe_wav (Fixture.engine Fixture.steady) Fixture.runtime
         Fixture.speech (Fixture.ready Fixture.steady))
  = inr (Some Fixture.speech_transcription).
Proof. vm_compute. reflexivity. Qed.

Example run_silence :
  fst (@transcribe_wav (Fixture.engine Fixture.steady) Fixture.runtime
         Fixture.silence (Fixture.ready Fixture.steady))
  = inr None.
Proof. vm_compute. reflexivity. Qed.

Example run_garbage :
  fst (@transcribe_wav (Fixture.engine Fixture.steady) Fixture.runtime
         Fixture.garbage (Fixture.ready Fixture.steady))
  = inl (WaveExn (wave_Error "file does not start with RIFF id")).
Proof. vm_compute. reflexivity. Qed.

Example run_zero_rate :
  fst (@transcribe_wav (Fixture.engine Fixture.steady) Fixture.runtime
         (Fixture.wav_file 0 (map Fixture.byte_of_Z [1; 0]%Z))
         (Fixture.ready Fixture.steady))
  = inl ZeroDivisionError.
Proof. vm_compute. reflexivity. Qed.

Example run_empty_payload :
  fst (@transcribe_wav (Fixture.engine Fixture.steady) Fixture.runtime
         (Fixture.wav_file 16000 []) (Fixture.ready Fixture.steady))
  = inl (RuntimeError "Decoder_process_raw returned -1").
Proof. vm_compute. reflexivity. Qed.

(** The two calls of a repeated recognition take 5 and 9 seconds on the
    sample clock. *)
Example run_twice_seconds :
  option_map transcribe_seconds
    (match fst (@transcribe_wav (Fixture.engine Fixture.steady) Fixture.runtime
                  Fixture.speech
                  (snd (@transcribe_wav (Fixture.engine Fixture.steady)
                          Fixture.runtime Fixture.speech
                          (Fixture.ready Fixture.steady)))) with
     | inr r => r
     | inl _ => None
     end)
  = Some 9%float.
Proof. vm_compute. reflexivity. Qed.

Example run_strip :
  strip (String (ascii_of_nat 9) " a b  ") = "a b".
Proof. reflexivity. Qed.

(** The sample recogniser under [steady] answers from the samples alone,
    so it meets the three descriptions of the engine. *)
Lemma steady_utterance_unobservable :
  @utterance_unobservable (Fixture.engine Fixture.steady).
Proof.
  intros d before audio. unfold heard, utterance. simpl.
  destruct before; destruct audio; reflexivity.
Defined.


Lemma pow2_in_unit_interval (n : nat) :
  in_unit_interval (Fixture.pow2 tt (- Z.of_nat n)) = true.
Proof.
  unfold Fixture.pow2, Z.ldexp.
  assert (Hall : forallb
                   (fun k => in_unit_interval
                               (ldshiftexp PrimFloat.one
                                  (Uint63.of_Z (- Z.of_nat k + shift))))
                   (seq 0 2100) = true)
    by (vm_compute; reflexivity).
  rewrite forallb_forall in Hall.
  replace (Z.max (Z.min (- Z.of_nat n) (emax - emin)) (emin - emax - 1))
    with (- Z.of_nat (Nat.min n 2099))%Z.
  - apply Hall. apply in_seq. lia.
  - change (emax - emin)%Z with 2098%Z. change (emin - emax - 1)%Z with (-2099)%Z.
    lia.
Defined.

Lemma steady_normalized_likelihood :
  @normalized_likelihood (Fixture.engine Fixture.steady).
Proof.
  intros d h. cbn [hyp exp get_logmath Fixture.engine]. unfold Fixture.best.
  destruct (Fixture.silent (Fixture.samples d)); [discriminate|].
  intros Hh. inversion Hh. cbn [prob]. unfold Fixture.steady.
  apply pow2_in_unit_interval.
Defined.

(** C1 on silence: the decoder is asked once, answers [None], and the call
    returns [None]. *)
Lemma transcription_iff_hypothesis_on_silence :
  let run := @transcribe_wav (Fixture.engine Fixture.steady) Fixture.runtime
               Fixture.silence (Fixture.ready Fixture.steady) in
  fst run = inr None
  /\ exists new,
      calls (snd run) = (calls (Fixture.ready Fixture.steady) ++ new)%list
      /\ ((exists t, fst run = inr (Some t))
          <-> (exists h, In (Call_hyp (Some h)) new))
      /\ (fst run = inr None <-> In (Call_hyp None) new).
Proof.
  intros run. split; [vm_compute; reflexivity|].
  apply (@transcription_iff_hypothesis (Fixture.engine Fixture.steady)
           Fixture.runtime Fixture.silence (Fixture.ready Fixture.steady)).
  vm_compute. reflexivity.
Defined.

(** C2 on four frames at 16 kHz. *)
Lemma wav_seconds_of_speech :
  let run := @transcribe_wav (Fixture.engine Fixture.steady) Fixture.runtime
               Fixture.speech (Fixture.ready Fixture.steady) in
  run = (inr (Some Fixture.speech_transcription), snd run)
  /\ exists w,
      Fixture.read_canonical Fixture.speech = inr w
      /\ wav_seconds Fixture.speech_transcription
         = PrimFloat.div (float_of_Z (getnframes w)) (float_of_Z (getframerate w)).
Proof.
  intros run. split; [vm_compute; reflexivity|].
  apply (@wav_seconds_is_frames_over_rate (Fixture.engine Fixture.steady)
           Fixture.runtime Fixture.speech (Fixture.ready Fixture.steady)
           (snd run)).
  vm_compute. reflexivity.
Defined.

(** C3 as stated fails, in three ways.  On an instance whose acoustic model
    is missing, a buffer that is no WAV file makes the first call raise the
    engine's [RuntimeError]; the parse is never reached.  A file whose
    payload is cut short and a file whose header says 0 Hz are accepted by
    the reader, as they are by [wave.open]: for the first the call returns
    a [Transcription], for the second it raises [ZeroDivisionError], which
    is not an error of the parsing. *)
Lemma malformed_wav_not_always_parse_error :
  (Fixture.read_canonical Fixture.garbage
   = inl (wave_Error "file does not start with RIFF id")
   /\ fst (@transcribe_wav_os (Fixture.engine Fixture.steady) Fixture.runtime
             name_max Fixture.garbage (Fixture.broken Fixture.steady))
      = inl (RuntimeError "new_Decoder returned -1"))
  /\ (List.length truncated = 48
      /\ getnframes (sample_parse truncated) = 4%Z
      /\ exists t,
          fst (@transcribe_wav_os (Fixture.engine Fixture.steady)
                 Fixture.runtime name_max truncated
                 (Fixture.ready Fixture.steady))
          = inr (Some t))
  /\ (getframerate (sample_parse zero_rate) = 0%Z
      /\ fst (@transcribe_wav_os (Fixture.engine Fixture.steady)
                Fixture.runtime name_max zero_rate
                (Fixture.ready Fixture.steady))
         = inl ZeroDivisionError).
Proof.
  split; [split; vm_compute; reflexivity|].
  split; [|split; vm_compute; reflexivity].
  split; [reflexivity|]. split; [vm_compute; reflexivity|].
  eexists. vm_compute. reflexivity.
Qed.

(** C3 as the code has it, on an instance whose models are installed. *)
Lemma rejected_bytes_raise_on_garbage :
  Fixture.read_canonical Fixture.garbage
  = inl (wave_Error "file does not start with RIFF id")
  /\ fst (@transcribe_wav_os (Fixture.engine Fixture.steady) Fixture.runtime
            name_max Fixture.garbage (Fixture.ready Fixture.steady))
     = inl (WaveExn (wave_Error "file does not start with RIFF id")).
Proof.
  split; [vm_compute; reflexivity|].
  apply (@rejected_bytes_raise (Fixture.engine Fixture.steady) Fixture.runtime
           name_max Fixture.garbage (Fixture.ready Fixture.steady)).
  vm_compute. reflexivity.
Defined.

(** C4 as stated fails: a matrix path whose name is too long does not
    exist, yet it is not skipped: [exists()] raises on it and [get_decoder]
    with it, while the same instance without matrix gets its decoder. *)
Lemma unanswered_exists_is_not_skipped :
  Fixture.on_disk long_name = false
  /\ fst (@get_decoder_os (Fixture.engine Fixture.steady) Fixture.runtime
            name_max
            (Fixture.instance Fixture.steady "/model/hmm" (Some (str long_name))))
     = inl (OSError "File name too long")
  /\ exists d,
      fst (@get_decoder_os (Fixture.engine Fixture.steady) Fixture.runtime
             name_max (Fixture.instance Fixture.steady "/model/hmm" None))
      = inr d.
Proof.
  split; [vm_compute; reflexivity|]. split; [vm_compute; reflexivity|].
  eexists. vm_compute. reflexivity.
Qed.

(** C4 as the code has it, on a matrix path that does not exist, against an
    instance without matrix. *)
Lemma missing_mllr_like_none :
  @stat_error name_max {| str := "/missing/mllr" |} = None
  /\ Fixture.on_disk {| str := "/missing/mllr" |} = false
  /\ (fst (@get_decoder_os (Fixture.engine Fixture.steady) Fixture.runtime
             name_max
             (Fixture.instance Fixture.steady "/model/hmm" (Some "/missing/mllr")))
      = fst (@get_decoder_os (Fixture.engine Fixture.steady) Fixture.runtime
               name_max (Fixture.instance Fixture.steady "/model/hmm" None))
      /\ same_but_mllr
           (snd (@get_decoder_os (Fixture.engine Fixture.steady) Fixture.runtime
                   name_max
                   (Fixture.instance Fixture.steady "/model/hmm"
                      (Some "/missing/mllr"))))
           (snd (@get_decoder_os (Fixture.engine Fixture.steady) Fixture.runtime
                   name_max (Fixture.instance Fixture.steady "/model/hmm" None)))
      /\ forall wav_data,
          fst (@transcribe_wav_os (Fixture.engine Fixture.steady)
                 Fixture.runtime name_max wav_data
                 (Fixture.instance Fixture.steady "/model/hmm"
                    (Some "/missing/mllr")))
          = fst (@transcribe_wav_os (Fixture.engine Fixture.steady)
                   Fixture.runtime name_max wav_data
                   (Fixture.instance Fixture.steady "/model/hmm" None))
          /\ same_but_mllr
               (snd (@transcribe_wav_os (Fixture.engine Fixture.steady)
                       Fixture.runtime name_max wav_data
                       (Fixture.instance Fixture.steady "/model/hmm"
                          (Some "/missing/mllr"))))
               (snd (@transcribe_wav_os (Fixture.engine Fixture.steady)
                       Fixture.runtime name_max wav_data
                       (Fixture.instance Fixture.steady "/model/hmm" None)))).
Proof.
  split; [reflexivity|]. split; [reflexivity|].
  apply (proj2 (@mllr_set_iff_exists_answers_true
                  (Fixture.engine Fixture.steady) Fixture.runtime name_max
                  (Fixture.instance Fixture.steady "/model/hmm"
                     (Some "/missing/mllr")))
           {| str := "/missing/mllr" |}).
  - reflexivity.
  - reflexivity.
  - reflexivity.
  - reflexivity.
  - vm_compute. repeat split; reflexivity.
Defined.



(** C6 on the sample engine, whose conversion is 2 to the power of a
    log-probability that is never positive. *)
Lemma likelihood_of_speech :
  @normalized_likelihood (Fixture.engine Fixture.steady)
  /\ fst (@transcribe_wav_os (Fixture.engine Fixture.steady) Fixture.runtime
            name_max Fixture.speech (Fixture.ready Fixture.steady))
     = inr (Some Fixture.speech_transcription)
  /\ in_unit_interval (likelihood Fixture.speech_transcription) = true.
Proof.
  split; [exact steady_normalized_likelihood|].
  split; [vm_compute; reflexivity|].
  apply (@likelihood_in_unit_interval (Fixture.engine Fixture.steady)
           Fixture.runtime name_max Fixture.speech
           (Fixture.ready Fixture.steady)
           (snd (@transcribe_wav_os (Fixture.engine Fixture.steady)
                   Fixture.runtime name_max Fixture.speech
                   (Fixture.ready Fixture.steady)))
           Fixture.speech_transcription steady_normalized_likelihood).
  vm_compute. reflexivity.
Defined.

(** C7 on the sample hypothesis, whose string has a space on either side. *)
Lemma text_of_speech :
  let run := @transcribe_wav (Fixture.engine Fixture.steady) Fixture.runtime
               Fixture.speech (Fixture.ready Fixture.steady) in
  In (Call_hyp (Some Fixture.heard_speech)) (calls (snd run))
  /\ exists t d,
      fst run = inr (Some t)
      /\ text t = strip (hypstr Fixture.heard_speech)
      /\ trimmed_from (hypstr Fixture.heard_speech) (text t)
      /\ decoder (self (snd run)) = Some d
      /\ likelihood t = Fixture.pow2 tt (prob Fixture.heard_speech).
Proof.
  intros run. split; [vm_compute; auto 10|].
  apply (@text_trimmed_likelihood_converted (Fixture.engine Fixture.steady)
           Fixture.runtime Fixture.speech (Fixture.ready Fixture.steady)
           (snd run) (fst run) (calls (snd run))).
  - vm_compute. reflexivity.
  - reflexivity.
  - vm_compute. auto 10.
Defined.


(** C10 on a buffer that is no WAV file, given to a fresh instance. *)
Lemma garbage_first_keeps_decoder :
  let run := @transcribe_wav (Fixture.engine Fixture.steady) Fixture.runtime
               Fixture.garbage (Fixture.ready Fixture.steady) in
  decoder (self (Fixture.ready Fixture.steady)) = None
  /\ fst run = inl (WaveExn (wave_Error "file does not start with RIFF id"))
  /\ Fixture.read_canonical Fixture.garbage
     = inl (wave_Error "file does not start with RIFF id")
  /\ exists d,
      decoder (self (snd run)) = Some d
      /\ calls (snd run)
         = (calls (Fixture.ready Fixture.steady)
            ++ [Call_Decoder
                  (@decoder_config (Fixture.engine Fixture.steady)
                     Fixture.runtime
                     (self (Fixture.ready Fixture.steady)))])%list
      /\ forall next,
          exists d',
            decoder (self (snd (@transcribe_wav (Fixture.engine Fixture.steady)
                                  Fixture.runtime next (snd run))))
            = Some d'
            /\ handle d' = handle d
            /\ constructions
                 (calls (snd (@transcribe_wav (Fixture.engine Fixture.steady)
                                Fixture.runtime next (snd run))))
               = constructions (calls (snd run)).
Proof.
  intros run. split; [reflexivity|]. split; [vm_compute; reflexivity|].
  apply (@parse_failure_keeps_decoder (Fixture.engine Fixture.steady)
           Fixture.runtime Fixture.garbage (Fixture.ready Fixture.steady)
           (snd run)).
  - reflexivity.
  - vm_compute. reflexivity.
Defined.

(** ** Further properties of the adapter *)

Section Coverage.

Context {engine : Engine} {runtime : Runtime}.

(** *** The calls into the engine *)

(** The engine calls of the loaded phase: nothing before the bytes are
    parsed and the duration is computed, then the utterance as far as the
    engine lets it go. *)
Lemma transcribe_loaded_trace (wav_data : bytes) (s s' : State) (d : Decoder)
    (r : exn + option Transcription) :
  decoder (self s) = Some d ->
  transcribe_loaded wav_data s = (r, s') ->
  (calls s' = calls s /\ raised r = true)
  \/ exists w x n,
       wave_open wav_data = inr w
       /\ calls s'
          = (calls s
             ++ firstn n (utterance_calls (readframes w (getnframes w)) x))%list
       /\ 1 <= n <= 4
       /\ (raised r = false <-> n = 4)
       /\ (n = 4 ->
           exists d', decoder (self s') = Some d' /\ hyp (state d') = x).
Proof.
  intros Hd H. unfold_loaded. run_in H.
  all: finish_run H.
  all: try (left; split; reflexivity).
  all: right; rewrite <- ?app_assoc; cbn [app].
  all: first
         [ solve [exists w, None, 1; repeat split; try reflexivity; try lia;
                  discriminate]
         | solve [exists w, None, 2; repeat split; try reflexivity; try lia;
                  discriminate]
         | solve [exists w, None, 3; repeat split; try reflexivity; try lia;
                  discriminate]
         | solve [eexists w, _, 4; repeat split; try reflexivity; try lia;
                  try (intros; reflexivity);
                  intros _; eexists; split;
                  [reflexivity | cbn [state]; assumption]] ].
Qed.


(** X2.  A call that returns, with a [Transcription] or with [None], has put
    the engine through exactly one complete utterance on the payload of the
    parsed file, and what it returns is decided by the answer that ends
    it. *)
Theorem returning_call_runs_one_utterance (wav_data : bytes) (s s' : State)
    (v : option Transcription) :
  transcribe_wav wav_data s = (inr v, s') ->
  exists w d',
    wave_open wav_data = inr w
    /\ decoder (self s') = Some d'
    /\ calls s'
       = (calls s
          ++ match decoder (self s) with
             | None => [Call_Decoder (decoder_config (self s))]
             | Some _ => []
             end
          ++ utterance_calls (readframes w (getnframes w)) (hyp (state d')))%list
    /\ (v = None <-> hyp (state d') = None).
Proof.
  intros H.
  assert (Hv : forall (s1 s2 : State) (d : Decoder),
             decoder (self s1) = Some d ->
             transcribe_loaded wav_data s1 = (inr v, s2) ->
             exists w d',
               wave_open wav_data = inr w /\ decoder (self s2) = Some d'
               /\ calls s2
                  = (calls s1
                     ++ utterance_calls (readframes w (getnframes w))
                          (hyp (state d')))%list
               /\ (v = None <-> hyp (state d') = None)).
  { intros s1 s2 d Hd1 H1.
    destruct (transcribe_loaded_trace _ _ _ _ _ Hd1 H1)
      as [[_ Hr]|[w [x [n [Hw [Hc [_ [Hn Hx]]]]]]]]; [discriminate Hr|].
    assert (n = 4) by (apply Hn; reflexivity). subst n.
    destruct (Hx eq_refl) as [d' [Hd' Hh]]. subst x.
    exists w, d'. repeat split; try assumption.
    - intros ->.
      destruct (transcribe_loaded_answer _ _ _ _ _ Hd1 H1)
        as [new [Hc' [_ [Hnone [Hx' _]]]]].
      destruct (Hx' _ (proj1 Hnone eq_refl)) as [d2 [Hd2 Hh2]]. congruence.
    - intros Hnone.
      destruct (transcribe_loaded_answer _ _ _ _ _ Hd1 H1)
        as [new [Hc' [_ [Hn' _]]]].
      rewrite Hc in Hc'. apply app_inv_head in Hc'. subst new.
      assert (Hv : @inr exn _ v = inr None)
        by (apply Hn'; rewrite Hnone; simpl; auto).
      inversion Hv. reflexivity. }
  destruct (decoder (self s)) as [d|] eqn:Hd.
  - rewrite (transcribe_wav_warm _ _ _ Hd) in H.
    destruct (Hv _ _ _ Hd H) as [w [d' [Hw [Hd' [Hc Hn]]]]].
    exists w, d'. split; [exact Hw|]. split; [exact Hd'|].
    split; [exact Hc | exact Hn].
  - rewrite (transcribe_wav_cold _ _ Hd) in H.
    destruct (Decoder_new _) as [msg|d0]; [discriminate|].
    assert (Hl : decoder (self (loaded s d0))
                 = Some {| handle := List.length (calls s); state := d0 |})
      by reflexivity.
    destruct (Hv _ _ _ Hl H) as [w [d' [Hw [Hd' [Hc Hn]]]]].
    exists w, d'. split; [exact Hw|]. split; [exact Hd'|].
    split; [|exact Hn].
    rewrite Hc. cbn [loaded calls]. rewrite <- app_assoc. reflexivity.
Qed.

(** *** Failures *)

(** X3.  On an instance that has its decoder, when the bytes parse and
    have a duration, [start_utt] returns and [process_raw] raises, the call
    raises the engine's [RuntimeError] at once: [end_utt] and [hyp] are not called, so the
    decoder is left inside the utterance, in the state [process_raw] left
    it; the clock was read once and nothing is logged. *)
Theorem process_raw_failure_skips_end_utt (wav_data : bytes) (s : State)
    (d : Decoder) (w : Wave_read) (seconds : float) (d1 d2 : DecoderState)
    (msg : string) :
  decoder (self s) = Some d ->
  wave_open wav_data = inr w ->
  duration w = inr seconds ->
  start_utt (state d) = (d1, None) ->
  process_raw d1 (readframes w (getnframes w)) false true = (d2, Some msg) ->
  fst (transcribe_wav wav_data s) = inl (RuntimeError msg)
  /\ calls (snd (transcribe_wav wav_data s))
     = (calls s
        ++ [Call_start_utt;
            Call_process_raw (readframes w (getnframes w)) false true])%list
  /\ decoder (self (snd (transcribe_wav wav_data s)))
     = Some {| handle := handle d; state := d2 |}
  /\ ticks (snd (transcribe_wav wav_data s)) = S (ticks s)
  /\ logged (snd (transcribe_wav wav_data s)) = logged s.
Proof.
  intros Hd Hw Hdur Hstart Hproc.
  rewrite (transcribe_wav_warm _ _ _ Hd). unfold duration in Hdur.
  destruct (int_to_float (getframerate w)) as [e|rate] eqn:Hrate; [discriminate|].
  unfold transcribe_loaded, bind, ret, lift, wave_open_, perf_counter,
    decoder_call, with_decoder.
  rewrite Hw. cbn [ret]. rewrite Hrate, Hdur. projections.
  rewrite Hd, Hstart. projections. rewrite Hproc. projections.
  rewrite <- app_assoc. repeat split.
Qed.

(** X4.  On an instance that has its decoder, a file whose sample rate is
    0 makes the call raise [ZeroDivisionError] ([OverflowError] if the frame
    count itself is beyond binary64) before the engine sees anything of it:
    the whole state is as before the call. *)
Theorem zero_sample_rate_raises (wav_data : bytes) (s : State) (d : Decoder)
    (w : Wave_read) :
  decoder (self s) = Some d ->
  wave_open wav_data = inr w ->
  getframerate w = 0%Z ->
  transcribe_wav wav_data s
  = (match int_to_float (getnframes w) with
     | inl e => inl e
     | inr _ => inl ZeroDivisionError
     end, s).
Proof.
  intros Hd Hw Hrate. rewrite (transcribe_wav_warm _ _ _ Hd).
  unfold transcribe_loaded, bind, ret, lift, wave_open_.
  rewrite Hw. cbn [ret]. rewrite Hrate.
  change (int_to_float 0) with (@inr exn float PrimFloat.zero).
  unfold truediv. destruct (int_to_float (getnframes w)); reflexivity.
Qed.

(** X6.  On an instance that has a decoder, a call that raises anything but
    the engine's [RuntimeError] changes nothing at all: the decoder, the
    trace, the clock and the log are as before. *)
Theorem early_failure_changes_nothing (wav_data : bytes) (s s' : State)
    (d : Decoder) (e : exn) :
  decoder (self s) = Some d ->
  transcribe_wav wav_data s = (inl e, s') ->
  (forall msg, e <> RuntimeError msg) ->
  s' = s.
Proof.
  intros Hd H Hne. rewrite (transcribe_wav_warm _ _ _ Hd) in H.
  unfold_loaded. run_in H.
  all: finish_run H; try reflexivity.
  all: exfalso; eapply Hne; reflexivity.
Qed.

(** *** Clock and log *)

Lemma records_with_app (fmt : string) (a b : list (string * float)) :
  records_with fmt (a ++ b) = records_with fmt a + records_with fmt b.
Proof.
  induction a as [|[f x] a IH]; simpl; [reflexivity|].
  destruct (String.eqb f fmt); simpl; rewrite IH; reflexivity.
Qed.

(** The clock and the log of the loaded phase: two readings and one record
    when it returns, at most one reading and no record when it raises. *)
Lemma transcribe_loaded_clock (wav_data : bytes) (s s' : State) (d : Decoder)
    (r : exn + option Transcription) :
  decoder (self s) = Some d ->
  transcribe_loaded wav_data s = (r, s') ->
  if raised r
  then logged s' = logged s /\ (ticks s' = ticks s \/ ticks s' = S (ticks s))
  else ticks s' = S (S (ticks s))
       /\ logged s'
          = (logged s
             ++ [("Decoded audio in %s second(s)",
                  PrimFloat.sub (clock (S (ticks s))) (clock (ticks s)))])%list
       /\ forall t, r = inr (Some t) ->
                    transcribe_seconds t
                    = PrimFloat.sub (clock (S (ticks s))) (clock (ticks s)).
Proof.
  intros Hd H. unfold_loaded. run_in H.
  all: finish_run H; cbn [raised].
  all: try (split; [reflexivity | auto]).
  all: split; [reflexivity|]; intros t Ht; inversion Ht; reflexivity.
Qed.

(** X7.  In a call that returns, the clock is read twice around the
    utterance, after the decoder was loaded and the file parsed: the
    reported [transcribe_seconds] is the difference of these two readings,
    so it leaves out the loading of the decoder on a first call, and it is
    what the call logs last, also when there is no hypothesis. *)
Theorem transcribe_seconds_excludes_loading (wav_data : bytes) (s s' : State)
    (v : option Transcription) :
  transcribe_wav wav_data s = (inr v, s') ->
  let n := match decoder (self s) with
           | None => S (S (ticks s))
           | Some _ => ticks s
           end in
  let elapsed := PrimFloat.sub (clock (S n)) (clock n) in
  ticks s' = S (S n)
  /\ (forall t, v = Some t -> transcribe_seconds t = elapsed)
  /\ logged s'
     = (match decoder (self s) with
        | None =>
            logged s
            ++ [("Successfully loaded decoder in %s second(s)",
                 PrimFloat.sub (clock (S (ticks s))) (clock (ticks s)))]
        | Some _ => logged s
        end ++ [("Decoded audio in %s second(s)", elapsed)])%list.
Proof.
  intros H n elapsed. subst n elapsed.
  destruct (decoder (self s)) as [d|] eqn:Hd.
  - rewrite (transcribe_wav_warm _ _ _ Hd) in H.
    pose proof (transcribe_loaded_clock _ _ _ _ _ Hd H) as Hc.
    cbn [raised] in Hc. destruct Hc as [Ht [Hl Hs]].
    split; [exact Ht|]. split; [|exact Hl].
    intros t ->. apply Hs. reflexivity.
  - rewrite (transcribe_wav_cold _ _ Hd) in H.
    destruct (Decoder_new _) as [msg|d0]; [discriminate|].
    assert (Hl : decoder (self (loaded s d0))
                 = Some {| handle := List.length (calls s); state := d0 |})
      by reflexivity.
    pose proof (transcribe_loaded_clock _ _ _ _ _ Hl H) as Hc.
    cbn [raised loaded ticks logged] in Hc. destruct Hc as [Ht [Hlog Hs]].
    split; [exact Ht|]. split; [|exact Hlog].
    intros t ->. apply Hs. reflexivity.
Qed.

(** X8.  The log gets exactly one "Decoded audio" record from a call that
    returns and none from a call that raises. *)
Theorem decoded_record_iff_returned (wav_data : bytes) (s s' : State)
    (r : exn + option Transcription) :
  transcribe_wav wav_data s = (r, s') ->
  records_with "Decoded audio in %s second(s)" (logged s')
  = records_with "Decoded audio in %s second(s)" (logged s)
    + (if raised r then 0 else 1).
Proof.
  intros H. destruct (decoder (self s)) as [d|] eqn:Hd.
  - rewrite (transcribe_wav_warm _ _ _ Hd) in H.
    pose proof (transcribe_loaded_clock _ _ _ _ _ Hd H) as Hc.
    destruct (raised r).
    + destruct Hc as [-> _]. lia.
    + destruct Hc as [_ [-> _]]. rewrite records_with_app. reflexivity.
  - rewrite (transcribe_wav_cold _ _ Hd) in H.
    destruct (Decoder_new _) as [msg|d0].
    + inversion H; subst. cbn [raised refused logged]. lia.
    + assert (Hl : decoder (self (loaded s d0))
                   = Some {| handle := List.length (calls s); state := d0 |})
        by reflexivity.
      pose proof (transcribe_loaded_clock _ _ _ _ _ Hl H) as Hc.
      destruct (raised r).
      * destruct Hc as [-> _]. cbn [loaded logged].
        rewrite records_with_app. simpl. lia.
      * destruct Hc as [_ [-> _]]. cbn [loaded logged].
        rewrite !records_with_app. simpl. lia.
Qed.

(** *** Building the decoder *)



(** *** The configuration *)





(** *** What a call depends on *)

(** X13.  Once an instance has its decoder, a call depends on the bytes, the
    decoder and the clock only: two instances with the same decoder and the
    same clock position return the same, with the same [transcribe_seconds],
    and leave the same decoder, whatever their five settings are.  Changing
    a setting after the first call therefore has no effect. *)
Theorem loaded_call_ignores_settings (wav_data : bytes) (a b : State)
    (d : Decoder) :
  decoder (self a) = Some d ->
  decoder (self b) = Some d ->
  ticks a = ticks b ->
  fst (transcribe_wav wav_data a) = fst (transcribe_wav wav_data b)
  /\ decoder (self (snd (transcribe_wav wav_data a)))
     = decoder (self (snd (transcribe_wav wav_data b))).
Proof.
  intros Ha Hb Ht.
  rewrite (transcribe_wav_warm _ _ _ Ha), (transcribe_wav_warm _ _ _ Hb).
  destruct a as [[am di lm ml db de] ca ti pr lo].
  destruct b as [[am' di' lm' ml' db' de'] ca' ti' pr' lo'].
  cbn [self decoder ticks] in Ha, Hb, Ht. subst de de' ti'.
  unfold_loaded. run_goal.
  all: split; reflexivity.
Qed.

(** X14.  The only path whose existence a call ever checks is the
    adaptation matrix, once, when the call has to build the decoder; the
    acoustic model, the dictionary and the language model are handed to the
    engine unchecked, and a call on an instance that has its decoder checks
    nothing. *)
Theorem only_mllr_is_probed (wav_data : bytes) (s : State) :
  probed (snd (transcribe_wav wav_data s))
  = match decoder (self s), mllr_matrix (self s) with
    | None, Some p => (probed s ++ [p])%list
    | _, _ => probed s
    end.
Proof.
  destruct (decoder (self s)) as [d|] eqn:Hd.
  - rewrite (transcribe_wav_warm _ _ _ Hd).
    destruct (transcribe_loaded wav_data s) as [r s'] eqn:H.
    apply (transcribe_loaded_frame _ _ _ _ _ Hd H).
  - rewrite (transcribe_wav_cold _ _ Hd).
    destruct (Decoder_new _) as [msg|d0].
    + cbn [snd refused probed]. unfold probes_after.
      destruct (mllr_matrix (self s)); reflexivity.
    + destruct (transcribe_loaded wav_data (loaded s d0)) as [r s'] eqn:H.
      assert (Hl : decoder (self (loaded s d0))
                   = Some {| handle := List.length (calls s); state := d0 |})
        by reflexivity.
      destruct (transcribe_loaded_frame _ _ _ _ _ Hl H) as [_ [_ [_ Hp]]].
      cbn [snd]. rewrite Hp. cbn [loaded probed]. unfold probes_after.
      destruct (mllr_matrix (self s)); reflexivity.
Qed.

(** *** An empty text *)

Lemma lstrip_all_space (s : string) :
  all_space s = true -> lstrip s = EmptyString.
Proof.
  induction s as [|c r IH]; simpl; [reflexivity|].
  destruct (isspace c); simpl; [exact IH | discriminate].
Qed.

(** X15.  A hypothesis whose string is empty or white space only is still a
    hypothesis: the call returns a [Transcription], not [None], and its text
    is the empty string. *)
Theorem blank_hypothesis_gives_empty_text (wav_data : bytes) (s s' : State)
    (r : exn + option Transcription) (new : list Call) (h : Hypothesis_) :
  transcribe_wav wav_data s = (r, s') ->
  calls s' = (calls s ++ new)%list ->
  In (Call_hyp (Some h)) new ->
  all_space (hypstr h) = true ->
  exists t, r = inr (Some t) /\ text t = EmptyString.
Proof.
  intros H Hc Hin Hblank.
  destruct (transcribe_wav_answer _ _ _ _ H) as [new' [Hc' [Ht [_ Hx]]]].
  assert (new' = new)
    by (apply (app_inv_head (calls s)); rewrite <- Hc, <- Hc'; reflexivity).
  subst new'.
  destruct (proj2 Ht (ex_intro _ h Hin)) as [t ->].
  destruct (Hx _ Hin) as [d [Hd Hh]].
  destruct (transcribe_wav_fields _ _ _ _ H)
    as [w [d' [h' [_ [Hd' [Hh' [Htext _]]]]]]].
  assert (d' = d) by congruence. subst d'.
  assert (h' = h) by congruence. subst h'.
  exists t. split; [reflexivity|].
  rewrite Htext. unfold strip. rewrite (lstrip_all_space _ Hblank). reflexivity.
Qed.

(** *** Construction, then the first call *)


(** *** Independence of what was decoded before *)

(** X17.  On an engine on which an utterance, finished or abandoned, does
    not change what the handle answers afterwards, what a call returns for
    some bytes (but for [transcribe_seconds]) does not depend on the calls
    made on the instance before, however many, on whatever bytes, and
    whether they returned or raised. *)
Theorem recognition_independent_of_history (wavs : list bytes) :
  utterance_unobservable ->
  forall (wav_data : bytes) (s : State),
    same_recognition
      (fst (transcribe_wav wav_data s))
      (fst (transcribe_wav wav_data (session wavs s))).
Proof.
  intros Hun wav_data. unfold same_recognition.
  induction wavs as [|w wavs IH]; intros s; cbn [session]; [reflexivity|].
  rewrite (observe_after w wav_data s); [apply IH|].
  intros d. apply recognise_after_any. exact Hun.
Qed.

(** *** The decoder after a call *)

(** X18.  On an instance that has its decoder, when the file parses and
    has a duration, the call leaves the decoder, under its old identity,
    exactly where the utterance on the payload left it, and it raises if and only if the utterance did, with
    the same message. *)
Theorem decoder_follows_utterance (wav_data : bytes) (s : State) (d : Decoder)
    (w : Wave_read) (seconds : float) :
  decoder (self s) = Some d ->
  wave_open wav_data = inr w ->
  duration w = inr seconds ->
  decoder (self (snd (transcribe_wav wav_data s)))
  = Some {| handle := handle d;
            state := fst (utterance (state d) (readframes w (getnframes w))) |}
  /\ match snd (utterance (state d) (readframes w (getnframes w))) with
     | Some msg => fst (transcribe_wav wav_data s) = inl (RuntimeError msg)
     | None => exists v, fst (transcribe_wav wav_data s) = inr v
     end.
Proof.
  intros Hd Hw Hdur. rewrite (transcribe_wav_warm _ _ _ Hd).
  unfold duration in Hdur.
  destruct (int_to_float (getframerate w)) as [e|rate] eqn:Hrate; [discriminate|].
  unfold utterance.
  unfold transcribe_loaded, bind, ret, lift, wave_open_, perf_counter,
    decoder_call, decoder_hyp, decoder_get_logmath, LOGGER_debug, with_decoder.
  rewrite Hw. cbn [ret]. rewrite Hrate, Hdur. projections. rewrite Hd.
  destruct (start_utt (state d)) as [d1 [m1|]]; projections;
    [split; reflexivity|].
  destruct (process_raw d1 (readframes w (getnframes w)) false true)
    as [d2 [m2|]]; projections; [split; reflexivity|].
  destruct (end_utt d2) as [d3 [m3|]]; projections; [split; reflexivity|].
  destruct (hyp d3); projections; (split; [reflexivity | eexists; reflexivity]).
Qed.

End Coverage.

(** ** The further properties on the sample collaborators *)


(** X2 on silence, given to the sample instance after a first call. *)
Lemma one_utterance_on_silence :
  let run := @transcribe_wav (Fixture.engine Fixture.steady) Fixture.runtime
               Fixture.silence warmed in
  fst run = inr None
  /\ exists w d',
      Fixture.read_canonical Fixture.silence = inr w
      /\ decoder (self (snd run)) = Some d'
      /\ calls (snd run)
         = (calls warmed
            ++ utterance_calls (readframes w (getnframes w))
                 (Fixture.best Fixture.steady (state d')))%list
      /\ (@None Transcription = None
          <-> Fixture.best Fixture.steady (state d') = None).
Proof.
  intros run. split; [vm_compute; reflexivity|].
  apply (@returning_call_runs_one_utterance (Fixture.engine Fixture.steady)
           Fixture.runtime Fixture.silence warmed (snd run) None).
  vm_compute. reflexivity.
Defined.

(** X3 on a file without samples, which the sample recogniser refuses. *)
Lemma no_samples_skips_end_utt :
  let run := @transcribe_wav (Fixture.engine Fixture.steady) Fixture.runtime
               no_samples warmed in
  Fixture.feed {| Fixture.finished := 1; Fixture.samples := [] |}
    (readframes (sample_parse no_samples) (getnframes (sample_parse no_samples)))
    false true
  = ({| Fixture.finished := 1; Fixture.samples := [] |},
     Some "Decoder_process_raw returned -1")
  /\ fst run = inl (RuntimeError "Decoder_process_raw returned -1")
  /\ calls (snd run)
     = (calls warmed
        ++ [Call_start_utt;
            Call_process_raw
              (readframes (sample_parse no_samples)
                 (getnframes (sample_parse no_samples))) false true])%list
  /\ decoder (self (snd run))
     = Some (sample_decoder 1 [])
  /\ ticks (snd run) = S (ticks warmed)
  /\ logged (snd run) = logged warmed.
Proof.
  intros run. split; [vm_compute; reflexivity|].
  apply (@process_raw_failure_skips_end_utt (Fixture.engine Fixture.steady)
           Fixture.runtime no_samples warmed
           (sample_decoder 1 speech_samples)
           (sample_parse no_samples) PrimFloat.zero
           {| Fixture.finished := 1; Fixture.samples := [] |}
           {| Fixture.finished := 1; Fixture.samples := [] |}
           "Decoder_process_raw returned -1").
  all: vm_compute; reflexivity.
Defined.

(** X4 on a header that says 0 Hz. *)
Lemma zero_rate_raises :
  getframerate (sample_parse zero_rate) = 0%Z
  /\ @transcribe_wav (Fixture.engine Fixture.steady) Fixture.runtime zero_rate
       warmed
     = (inl ZeroDivisionError, warmed).
Proof.
  split; [vm_compute; reflexivity|].
  apply (@zero_sample_rate_raises (Fixture.engine Fixture.steady)
           Fixture.runtime zero_rate warmed
           (sample_decoder 1 speech_samples)
           (sample_parse zero_rate)).
  all: vm_compute; reflexivity.
Defined.

(** X6 on the same buffer, given to an instance that has its decoder. *)
Lemma garbage_changes_nothing :
  let run := @transcribe_wav (Fixture.engine Fixture.steady) Fixture.runtime
               Fixture.garbage warmed in
  fst run = inl (WaveExn (wave_Error "file does not start with RIFF id"))
  /\ snd run = warmed.
Proof.
  intros run. split; [vm_compute; reflexivity|].
  apply (@early_failure_changes_nothing (Fixture.engine Fixture.steady)
           Fixture.runtime Fixture.garbage warmed (snd run)
           (sample_decoder 1 speech_samples)
           (WaveExn (wave_Error "file does not start with RIFF id"))).
  - vm_compute. reflexivity.
  - vm_compute. reflexivity.
  - intros msg. discriminate.
Defined.

(** X7 on the first call of the sample instance: the clock stands at 4
    afterwards, and 5 = 9 - 4 seconds are reported. *)
Lemma seconds_of_first_call :
  let run := @transcribe_wav (Fixture.engine Fixture.steady) Fixture.runtime
               Fixture.speech (Fixture.ready Fixture.steady) in
  fst run = inr (Some Fixture.speech_transcription)
  /\ ticks (snd run) = 4
  /\ (forall t, Some Fixture.speech_transcription = Some t ->
                transcribe_seconds t
                = PrimFloat.sub (Fixture.square_clock 3) (Fixture.square_clock 2))
  /\ logged (snd run)
     = [("Successfully loaded decoder in %s second(s)",
         PrimFloat.sub (Fixture.square_clock 1) (Fixture.square_clock 0));
        ("Decoded audio in %s second(s)",
         PrimFloat.sub (Fixture.square_clock 3) (Fixture.square_clock 2))].
Proof.
  intros run. split; [vm_compute; reflexivity|].
  apply (@transcribe_seconds_excludes_loading (Fixture.engine Fixture.steady)
           Fixture.runtime Fixture.speech (Fixture.ready Fixture.steady)
           (snd run) (Some Fixture.speech_transcription)).
  vm_compute. reflexivity.
Defined.

(** X8 on silence: a call that returns [None] logs its record. *)
Lemma silence_is_logged :
  let run := @transcribe_wav (Fixture.engine Fixture.steady) Fixture.runtime
               Fixture.silence warmed in
  fst run = inr None
  /\ records_with "Decoded audio in %s second(s)" (logged (snd run))
     = records_with "Decoded audio in %s second(s)" (logged warmed) + 1.
Proof.
  intros run. split; [vm_compute; reflexivity|].
  apply (@decoded_record_iff_returned (Fixture.engine Fixture.steady)
           Fixture.runtime Fixture.silence warmed (snd run) (inr None)).
  vm_compute. reflexivity.
Defined.


(** X13 on the sample instance and on the same with another acoustic model
    path. *)
Lemma retuned_instance_same_result :
  acoustic_model (self retuned) <> acoustic_model (self warmed)
  /\ fst (@transcribe_wav (Fixture.engine Fixture.steady) Fixture.runtime
            Fixture.speech warmed)
     = fst (@transcribe_wav (Fixture.engine Fixture.steady) Fixture.runtime
              Fixture.speech retuned)
  /\ decoder (self (snd (@transcribe_wav (Fixture.engine Fixture.steady)
                           Fixture.runtime Fixture.speech warmed)))
     = decoder (self (snd (@transcribe_wav (Fixture.engine Fixture.steady)
                             Fixture.runtime Fixture.speech retuned))).
Proof.
  split; [vm_compute; discriminate|].
  apply (@loaded_call_ignores_settings (Fixture.engine Fixture.steady)
           Fixture.runtime Fixture.speech warmed retuned
           (sample_decoder 1 speech_samples)).
  all: vm_compute; reflexivity.
Defined.

(** X15 on the engine whose hypothesis is a tab and two spaces. *)
Lemma blank_hypothesis_on_speech :
  let run := @transcribe_wav blank_engine Fixture.runtime Fixture.speech
               blank_ready in
  let h := {| hypstr := String (ascii_of_nat 9) "  "; best_score := -1000;
              prob := -8 |} in
  In (Call_hyp (Some h)) (calls (snd run))
  /\ all_space (hypstr h) = true
  /\ exists t, fst run = inr (Some t) /\ text t = EmptyString.
Proof.
  intros run h. split; [vm_compute; auto 10|]. split; [reflexivity|].
  apply (@blank_hypothesis_gives_empty_text blank_engine Fixture.runtime
           Fixture.speech blank_ready (snd run) (fst run) (calls (snd run)) h).
  - vm_compute. reflexivity.
  - reflexivity.
  - vm_compute. auto 10.
  - reflexivity.
Defined.

(** X17 on the sample engine, with a silent file and a buffer that is no
    WAV file decoded in between. *)
Lemma speech_after_other_calls :
  @utterance_unobservable (Fixture.engine Fixture.steady)
  /\ same_recognition
       (fst (@transcribe_wav (Fixture.engine Fixture.steady) Fixture.runtime
               Fixture.speech (Fixture.ready Fixture.steady)))
       (fst (@transcribe_wav (Fixture.engine Fixture.steady) Fixture.runtime
               Fixture.speech
               (@session (Fixture.engine Fixture.steady) Fixture.runtime
                  [Fixture.silence; Fixture.garbage]
                  (Fixture.ready Fixture.steady)))).
Proof.
  split; [exact steady_utterance_unobservable|].
  apply (@recognition_independent_of_history (Fixture.engine Fixture.steady)
           Fixture.runtime [Fixture.silence; Fixture.garbage]
           steady_utterance_unobservable).
Defined.

(** X18 on the sample speech, given to the instance after a first call. *)
Lemma decoder_after_second_speech :
  let run := @transcribe_wav (Fixture.engine Fixture.steady) Fixture.runtime
               Fixture.speech warmed in
  Fixture.read_canonical Fixture.speech = inr (sample_parse Fixture.speech)
  /\ decoder (self (snd run))
     = Some (sample_decoder 2 speech_samples)
  /\ exists v, fst run = inr v.
Proof.
  intros run. split; [vm_compute; reflexivity|].
  apply (@decoder_follows_utterance (Fixture.engine Fixture.steady)
           Fixture.runtime Fixture.speech warmed
           (sample_decoder 1 speech_samples)
           (sample_parse Fixture.speech) (PrimFloat.div 4 16000)).
  all: vm_compute; reflexivity.
Defined.
